(** * Beacon: commercial-register synchronisation core

    A shallow embedding of the parts of the repository that the
    specification talks about:

    - [app/enrichment.py]: [fetch_registry_data], [map_registry_data] and
      the enrichment cache ([is_cache_valid], [get_cached_enrichment],
      [cache_enrichment], [cleanup_old_cache]);
    - [app/cache.py]: [CacheService] and its in-memory fallback tier;
    - [app/workers/daily_sync.py]: the deed parser
      ([parse_company_changes], [_extract_company_data],
      [_extract_subdeed_data]), the merge path ([_update_single_company],
      [update_database]) and the per-date runs;
    - [app/services.py]: [CompanyService] and [SyncService].

    Python values decoded from JSON are embedded as the inductive type
    [pyval]; a Python exception is a value of [exn] carried by the result
    type [res]; code that mutates an object threads that object explicitly.
    A coroutine is embedded as the function it computes: [await] is
    transparent. *)

From Stdlib Require Import ZArith Ascii String List Bool Lia.
From stdpp Require Import gmap strings list fin_maps pretty.

Local Open Scope string_scope.
Local Open Scope Z_scope.

(** ** Python values, exceptions and results *)

Module Py.

(** The values [json.loads] produces (numbers are kept as integers). *)
#[local] Set Warnings "-register-all".
Inductive pyval : Type :=
  | PNone
  | PBool (b : bool)
  | PInt (n : Z)
  | PStr (s : string)
  | PList (xs : list pyval)
  | PDict (kvs : list (string * pyval)).

(** The exception classes the modelled code can meet.  The last block is
    SQLAlchemy's: every one of them derives from [SQLAlchemyError]. *)
Inductive exn : Type :=
  | TypeError | KeyError | IndexError | AttributeError | ValueError
  | JSONDecodeError
  | TimeoutException | ConnectError
  | RedisError
  | CompanyNotFound | DatabaseError | DuplicateCompanyError
  | MultipleResultsFound | CompileError | IntegrityError | OperationalError.

Definition is_SQLAlchemyError (e : exn) : bool :=
  match e with
  | MultipleResultsFound | CompileError | IntegrityError | OperationalError => true
  | _ => false
  end.

Inductive res (A : Type) : Type :=
  | Ok (a : A)
  | Raise (e : exn).
Arguments Ok {A} a.
Arguments Raise {A} e.

Definition res_bind {A B} (r : res A) (k : A -> res B) : res B :=
  match r with
  | Ok a => k a
  | Raise e => Raise e
  end.

Definition is_Ok {A} (r : res A) : bool :=
  match r with Ok _ => true | Raise _ => false end.

(** [bool(x)] *)
Definition truthy (x : pyval) : bool :=
  match x with
  | PNone => false
  | PBool b => b
  | PInt n => negb (n =? 0)
  | PStr s => negb (String.eqb s "")
  | PList xs => match xs with [] => false | _ => true end
  | PDict kvs => match kvs with [] => false | _ => true end
  end.

Definition isinstance_dict (x : pyval) : bool :=
  match x with PDict _ => true | _ => false end.

Definition isinstance_list (x : pyval) : bool :=
  match x with PList _ => true | _ => false end.

(** A JSON object keeps its keys in document order; a lookup finds the
    entry of the key. *)
Fixpoint dict_lookup (k : string) (kvs : list (string * pyval)) : option pyval :=
  match kvs with
  | [] => None
  | (k', v) :: rest => if String.eqb k k' then Some v else dict_lookup k rest
  end.

Definition is_str (k : string) (x : pyval) : bool :=
  match x with PStr s => String.eqb s k | _ => false end.

Fixpoint is_substring (k s : string) : bool :=
  String.prefix k s ||
  match s with
  | EmptyString => false
  | String _ s' => is_substring k s'
  end.

(** [k in x] for a string [k] *)
Definition contains (k : string) (x : pyval) : res bool :=
  match x with
  | PDict kvs => Ok (match dict_lookup k kvs with Some _ => true | None => false end)
  | PList xs => Ok (existsb (is_str k) xs)
  | PStr s => Ok (is_substring k s)
  | PNone | PBool _ | PInt _ => Raise TypeError
  end.

(** [x[k]] for a string [k] *)
Definition getitem (x : pyval) (k : string) : res pyval :=
  match x with
  | PDict kvs => match dict_lookup k kvs with Some v => Ok v | None => Raise KeyError end
  | _ => Raise TypeError
  end.

(** [x.get(k)] *)
Definition get (x : pyval) (k : string) : res pyval :=
  match x with
  | PDict kvs => Ok (default PNone (dict_lookup k kvs))
  | _ => Raise AttributeError
  end.

Fixpoint chars (s : string) : list pyval :=
  match s with
  | EmptyString => []
  | String c s' => PStr (String c EmptyString) :: chars s'
  end.

(** The items a [for] loop over [x] visits. *)
Definition iter (x : pyval) : res (list pyval) :=
  match x with
  | PList xs => Ok xs
  | PDict kvs => Ok (map (fun kv => PStr (fst kv)) kvs)
  | PStr s => Ok (chars s)
  | PNone | PBool _ | PInt _ => Raise TypeError
  end.

(** [x[0]] *)
Definition index0 (x : pyval) : res pyval :=
  match x with
  | PList (v :: _) => Ok v
  | PList [] => Raise IndexError
  | PStr (String c _) => Ok (PStr (String c EmptyString))
  | PStr EmptyString => Raise IndexError
  | PDict _ => Raise KeyError
  | PNone | PBool _ | PInt _ => Raise TypeError
  end.

(** Whitespace as [str.strip] sees it, within ASCII. *)
Definition is_space (c : ascii) : bool :=
  let n := nat_of_ascii c in
  ((9 <=? n)%nat && (n <=? 13)%nat) || ((28 <=? n)%nat && (n <=? 32)%nat).

Fixpoint lstrip_chars (cs : list ascii) : list ascii :=
  match cs with
  | c :: cs' => if is_space c then lstrip_chars cs' else cs
  | [] => []
  end.

Definition strip_string (s : string) : string :=
  string_of_list_ascii
    (rev (lstrip_chars (rev (lstrip_chars (list_ascii_of_string s))))).

(** [x.strip()] *)
Definition strip (x : pyval) : res pyval :=
  match x with
  | PStr s => Ok (PStr (strip_string s))
  | _ => Raise AttributeError
  end.

(** [sep.join(parts)] *)
Fixpoint join (sep : string) (parts : list pyval) : res string :=
  match parts with
  | [] => Ok ""
  | [PStr s] => Ok s
  | PStr s :: rest => res_bind (join sep rest) (fun r => Ok (s +:+ sep +:+ r))
  | _ :: _ => Raise TypeError
  end.

End Py.
Import Py.

(** ** Registry client for single entities ([app/enrichment.py]) *)

Module Enrichment.

(** What [client.get(url)] does: it raises, or it returns a response with
    a status code whose [.json()] decodes the body or raises. *)
Inductive http_outcome : Type :=
  | Response (status_code : Z) (json : res pyval)
  | HttpRaise (e : exn).

Definition REGISTRY_API_URL : string :=
  "https://portal.registryagency.bg/CR/api/Deeds".

(** The body of the [try] block of [fetch_registry_data]. *)
Definition fetch_registry_data_try (client_get : string -> http_outcome) (uid : string)
  : res pyval :=
  match client_get (REGISTRY_API_URL +:+ "/" +:+ uid) with
  | HttpRaise e => Raise e
  | Response status_code json =>
      if status_code =? 200 then json
      else if status_code =? 404 then Ok PNone
      else Ok PNone
  end.

Definition fetch_registry_data (client_get : string -> http_outcome) (uid : string)
  : res pyval :=
  match fetch_registry_data_try client_get uid with
  | Ok v => Ok v
  | Raise TimeoutException => Ok PNone
  | Raise _ => Ok PNone
  end.

End Enrichment.

(** ** Two-tier cache ([app/cache.py]) *)

Module Cache.

(** The primary tier, seen from one call of [CacheService]: what each
    method of the Redis client does when awaited, a value or an
    exception. *)
Record redis : Type := {
  redis_get : string -> res (option string);
  redis_setex : string -> Z -> string -> res unit;
  redis_delete : string -> res Z;
  redis_exists : string -> res Z;
  redis_incr : string -> Z -> res Z;
  redis_expire : string -> Z -> res Z;
  redis_ping : res bool
}.

(** The two dictionaries of the in-memory tier. *)
Record fallback : Type := {
  _fallback_cache : gmap string pyval;
  _fallback_timestamps : gmap string Z
}.

Record CacheService : Type := {
  redis_client : option redis;
  fb : fallback
}.

Definition with_fb (self : CacheService) (st : fallback) : CacheService :=
  {| redis_client := redis_client self; fb := st |}.

(** [if len(self._fallback_cache) > 1000] *)
Definition FALLBACK_CAP : nat := 1000.

Section WithConfig.

(** [config.CACHE_TTL] (hours), and the [json] module of the standard
    library.  A reading [now] of the event loop's clock
    ([asyncio.get_event_loop().time()], seconds) is an integer here, one
    reading for each call of the service. *)
Variable CACHE_TTL : Z.
Variable json_dumps : pyval -> res string.
Variable json_loads : string -> res pyval.

(** [del self._fallback_cache[key]; del self._fallback_timestamps[key]] *)
Definition del_entry (key : string) (st : fallback) : res unit * fallback :=
  match _fallback_cache st !! key with
  | None => (Raise KeyError, st)
  | Some _ =>
      let st1 := {| _fallback_cache := delete key (_fallback_cache st);
                    _fallback_timestamps := _fallback_timestamps st |} in
      match _fallback_timestamps st !! key with
      | None => (Raise KeyError, st1)
      | Some _ =>
          (Ok tt, {| _fallback_cache := delete key (_fallback_cache st);
                     _fallback_timestamps := delete key (_fallback_timestamps st) |})
      end
  end.

Definition _get_fallback (now : Z) (key : string) (st : fallback) : res pyval * fallback :=
  match _fallback_cache st !! key with
  | Some v =>
      let timestamp := default 0 (_fallback_timestamps st !! key) in
      if now - timestamp <? CACHE_TTL * 3600 then (Ok v, st)
      else
        match del_entry key st with
        | (Ok _, st') => (Ok PNone, st')
        | (Raise e, st') => (Raise e, st')
        end
  | None => (Ok PNone, st)
  end.

Fixpoint del_entries (keys : list string) (st : fallback) : res unit * fallback :=
  match keys with
  | [] => (Ok tt, st)
  | key :: rest =>
      match del_entry key st with
      | (Ok _, st') => del_entries rest st'
      | (Raise e, st') => (Raise e, st')
      end
  end.

(** The comprehension [expired_keys] of [_cleanup_fallback_cache].  The
    keys come in the order of [map_to_list], not in insertion order; the
    order shows only in which entries are already deleted when a [del]
    raises. *)
Definition expired (now : Z) (entry : string * Z) : Prop :=
  now - entry.2 > CACHE_TTL * 3600.

#[local] Instance expired_dec now entry : Decision (expired now entry).
Proof. unfold expired. apply _. Defined.

Definition expired_keys (now : Z) (st : fallback) : list string :=
  (map_to_list (filter (expired now) (_fallback_timestamps st))).*1.

Definition _cleanup_fallback_cache (now : Z) (st : fallback) : res unit * fallback :=
  del_entries (expired_keys now st) st.

(** [except Exception: ... return False] *)
Definition _set_fallback (now : Z) (key : string) (value : pyval) (ttl : option Z)
    (st : fallback) : bool * fallback :=
  let st1 := {| _fallback_cache := <[key := value]> (_fallback_cache st);
                _fallback_timestamps := <[key := now]> (_fallback_timestamps st) |} in
  if (FALLBACK_CAP <? size (_fallback_cache st1))%nat then
    match _cleanup_fallback_cache now st1 with
    | (Ok _, st2) => (true, st2)
    | (Raise _, st2) => (false, st2)
    end
  else (true, st1).

Definition _delete_fallback (key : string) (st : fallback) : bool * fallback :=
  match _fallback_cache st !! key with
  | Some _ =>
      match del_entry key st with
      | (Ok _, st') => (true, st')
      | (Raise _, st') => (false, st')
      end
  | None => (true, st)
  end.

(** [if value:] for the bytes (or [None]) read from Redis. *)
Definition bytes_truthy (value : option string) : bool :=
  match value with
  | Some s => negb (String.eqb s "")
  | None => false
  end.

Definition lift_fb {A} (self : CacheService) (r : A * fallback) : A * CacheService :=
  (r.1, with_fb self r.2).

(** [CacheService.get]; the fallback called from the handler may itself
    raise, and then the exception leaves [get]. *)
Definition get (self : CacheService) (now : Z) (key : string) : res pyval * CacheService :=
  match redis_client self with
  | Some r =>
      match redis_get r key with
      | Ok value =>
          if bytes_truthy value then
            match json_loads (default "" value) with
            | Ok v => (Ok v, self)
            | Raise _ => lift_fb self (_get_fallback now key (fb self))
            end
          else (Ok PNone, self)
      | Raise _ => lift_fb self (_get_fallback now key (fb self))
      end
  | None =>
      match _get_fallback now key (fb self) with
      | (Ok v, st) => (Ok v, with_fb self st)
      | (Raise _, st) => lift_fb self (_get_fallback now key st)
      end
  end.

Definition set (self : CacheService) (now : Z) (key : string) (value : pyval)
    (ttl : option Z) : bool * CacheService :=
  match redis_client self with
  | Some r =>
      let ttl' := match ttl with
                  | Some t => if t =? 0 then CACHE_TTL * 3600 else t
                  | None => CACHE_TTL * 3600
                  end in
      match res_bind (json_dumps value) (redis_setex r key ttl') with
      | Ok _ => (true, self)
      | Raise _ => lift_fb self (_set_fallback now key value (Some ttl') (fb self))
      end
  | None => lift_fb self (_set_fallback now key value ttl (fb self))
  end.

Definition delete (self : CacheService) (key : string) : bool * CacheService :=
  match redis_client self with
  | Some r =>
      match redis_delete r key with
      | Ok _ => (true, self)
      | Raise _ => lift_fb self (_delete_fallback key (fb self))
      end
  | None => lift_fb self (_delete_fallback key (fb self))
  end.

Definition in_fallback (self : CacheService) (key : string) : bool :=
  match _fallback_cache (fb self) !! key with Some _ => true | None => false end.

(** [CacheService.exists] *)
Definition exists_ (self : CacheService) (key : string) : bool :=
  match redis_client self with
  | Some r =>
      match redis_exists r key with
      | Ok n => negb (n =? 0)
      | Raise _ => in_fallback self key
      end
  | None => in_fallback self key
  end.

(** The [else] branch of [increment]: the counter kept in the in-memory
    dictionary ([bool] is a subclass of [int]). *)
Definition increment_fallback (key : string) (amount : Z) (st : fallback)
  : pyval * fallback :=
  let store n :=
    (PInt (n + amount),
     {| _fallback_cache := <[key := PInt (n + amount)]> (_fallback_cache st);
        _fallback_timestamps := _fallback_timestamps st |}) in
  match default (PInt 0) (_fallback_cache st !! key) with
  | PInt n => store n
  | PBool b => store (if b then 1 else 0)
  | _ => (PNone, st)
  end.

Definition increment (self : CacheService) (key : string) (amount : Z)
  : pyval * CacheService :=
  match redis_client self with
  | Some r =>
      match redis_incr r key amount with
      | Ok n => (PInt n, self)
      | Raise _ => (PNone, self)
      end
  | None => lift_fb self (increment_fallback key amount (fb self))
  end.

Definition health_check (self : CacheService) : bool :=
  match redis_client self with
  | Some r =>
      match redis_ping r with
      | Ok _ => true
      | Raise _ => false
      end
  | None => true
  end.

End WithConfig.

End Cache.

(** ** Deed parser ([app/workers/daily_sync.py]) *)

Module Parser.

(** The dictionary [company_data] that [_extract_subdeed_data] fills in
    place: the blocks below thread it, and an exception leaves it as it
    was when the exception was raised. *)
Abbreviation company_dict := (gmap string pyval).

Definition M (A : Type) : Type := company_dict -> res A * company_dict.

Definition ret {A} (a : A) : M A := fun st => (Ok a, st).

Definition bind {A B} (m : M A) (k : A -> M B) : M B :=
  fun st =>
    match m st with
    | (Ok a, st') => k a st'
    | (Raise e, st') => (Raise e, st')
    end.

Definition lift {A} (r : res A) : M A := fun st => (r, st).

(** [company_data[key] = value] *)
Definition setitem (key : string) (value : pyval) : M unit :=
  fun st => (Ok tt, <[key := value]> st).

Notation "x <- m ;; k" := (bind m (fun x => k))
  (at level 100, m at next level, right associativity).
Notation "x <~ r ;; k" := (res_bind r (fun x => k))
  (at level 100, r at next level, right associativity).

Inductive ctl : Type := Continue | Break.

(** A [for] loop whose body may [break]. *)
Fixpoint for_each (xs : list pyval) (body : pyval -> M ctl) : M unit :=
  match xs with
  | [] => ret tt
  | x :: rest =>
      c <- body x ;;
      match c with
      | Break => ret tt
      | Continue => for_each rest body
      end
  end.

(** The redaction placeholder of the register's open data. *)
Definition REDACTED : string := "**********".

(** [x != '**********'] *)
Definition ne_str (x : pyval) (s : string) : bool :=
  match x with
  | PStr t => negb (String.eqb t s)
  | _ => true
  end.

(** [if x and x.strip()] *)
Definition nonblank (x : pyval) : res bool :=
  if truthy x then s <~ strip x ;; Ok (truthy s) else Ok false.

Definition managers_block (subdeed : pyval) : M unit :=
  has <- lift (contains "Managers" subdeed) ;;
  if has : bool then
    managers <- lift (getitem subdeed "Managers") ;;
    entries <- lift (iter managers) ;;
    for_each entries (fun manager_entry =>
      if isinstance_dict manager_entry then
        has_name <- lift (contains "_" manager_entry) ;;
        if has_name : bool then
          manager_name <- lift (getitem manager_entry "_") ;;
          ok <- lift (nonblank manager_name) ;;
          if ok : bool then
            stripped <- lift (strip manager_name) ;;
            _ <- setitem "manager" stripped ;;
            ret Break
          else ret Continue
        else ret Continue
      else ret Continue)
  else ret tt.

(** One of the four [if 'Settlement' in addr and addr['Settlement']]
    paragraphs. *)
Definition address_part (addr : pyval) (field : string) (address_parts : list pyval)
  : res (list pyval) :=
  has <~ contains field addr ;;
  if has : bool then
    v <~ getitem addr field ;;
    if truthy v then
      if isinstance_list v then
        first <~ index0 v ;; Ok (address_parts ++ [first])%list
      else Ok (address_parts ++ [v])%list
    else Ok address_parts
  else Ok address_parts.

Definition seat_address_parts (seat_entry : pyval) : res (list pyval) :=
  has <~ contains "Address" seat_entry ;;
  if has : bool then
    addr0 <~ getitem seat_entry "Address" ;;
    addr <~ (if isinstance_list addr0 && truthy addr0 then index0 addr0 else Ok addr0) ;;
    if isinstance_dict addr then
      p1 <~ address_part addr "Settlement" [] ;;
      p2 <~ address_part addr "Street" p1 ;;
      p3 <~ address_part addr "StreetNumber" p2 ;;
      address_part addr "PostCode" p3
    else Ok []
  else Ok [].

Definition address_block (subdeed : pyval) : M unit :=
  has <- lift (contains "Seat" subdeed) ;;
  if has : bool then
    seat <- lift (getitem subdeed "Seat") ;;
    entries <- lift (iter seat) ;;
    for_each entries (fun seat_entry =>
      if isinstance_dict seat_entry then
        address_parts <- lift (seat_address_parts seat_entry) ;;
        match address_parts with
        | [] => ret Continue
        | _ =>
            address <- lift (join ", " (List.filter truthy address_parts)) ;;
            _ <- setitem "address" (PStr address) ;;
            ret Continue
        end
      else ret Continue)
  else ret tt.

(** [contacts[field]], with a list replaced by its first item; [None]
    when the key is missing or its value is falsy. *)
Definition contact_value (contacts : pyval) (field : string) : res (option pyval) :=
  has <~ contains field contacts ;;
  if has : bool then
    v <~ getitem contacts field ;;
    if truthy v then
      if isinstance_list v then first <~ index0 v ;; Ok (Some first)
      else Ok (Some v)
    else Ok None
  else Ok None.

Definition contact_phone (contacts : pyval) : M unit :=
  v <- lift (contact_value contacts "Phone") ;;
  match v with
  | Some phone =>
      ok <- lift (nonblank phone) ;;
      if ok && ne_str phone REDACTED then
        stripped <- lift (strip phone) ;;
        setitem "phone" stripped
      else ret tt
  | None => ret tt
  end.

Definition contact_field (contacts : pyval) (field key : string) : M unit :=
  v <- lift (contact_value contacts field) ;;
  match v with
  | Some x =>
      ok <- lift (nonblank x) ;;
      if ok : bool then
        stripped <- lift (strip x) ;;
        setitem key stripped
      else ret tt
  | None => ret tt
  end.

Definition contacts_block (subdeed : pyval) : M unit :=
  has <- lift (contains "Seat" subdeed) ;;
  if has : bool then
    seat <- lift (getitem subdeed "Seat") ;;
    entries <- lift (iter seat) ;;
    for_each entries (fun seat_entry =>
      if isinstance_dict seat_entry then
        has_contacts <- lift (contains "Contacts" seat_entry) ;;
        if has_contacts : bool then
          contacts0 <- lift (getitem seat_entry "Contacts") ;;
          contacts <- lift (if isinstance_list contacts0 && truthy contacts0
                            then index0 contacts0 else Ok contacts0) ;;
          if isinstance_dict contacts then
            _ <- contact_phone contacts ;;
            _ <- contact_field contacts "EMail" "email" ;;
            _ <- contact_field contacts "URL" "website" ;;
            ret Continue
          else ret Continue
        else ret Continue
      else ret Continue)
  else ret tt.

Definition _extract_subdeed_data_try (subdeed : pyval) : M unit :=
  _ <- managers_block subdeed ;;
  _ <- address_block subdeed ;;
  contacts_block subdeed.

(** The [except Exception] of [_extract_subdeed_data] only logs. *)
Definition _extract_subdeed_data (subdeed : pyval) (company_data : company_dict)
  : company_dict :=
  (_extract_subdeed_data_try subdeed company_data).2.

Definition new_company_data (uid company_name legal_form status : pyval) : company_dict :=
  <["uid" := uid]> (<["name" := company_name]> (<["legal_form" := legal_form]>
  (<["status" := status]> (<["manager" := PNone]> (<["address" := PNone]>
  (<["phone" := PNone]> (<["email" := PNone]> ∅))))))).

Definition _extract_company_data_try (deed : pyval) : res (option company_dict) :=
  has <~ contains "$" deed ;;
  if negb has then Ok None
  else
    deed_info <~ getitem deed "$" ;;
    uid <~ get deed_info "UIC" ;;
    company_name <~ get deed_info "CompanyName" ;;
    legal_form <~ get deed_info "LegalForm" ;;
    if negb (truthy uid) || negb (truthy company_name) then Ok None
    else
      status <~ get deed_info "DeedStatus" ;;
      let company_data := new_company_data uid company_name legal_form status in
      has_sub <~ contains "SubDeed" deed ;;
      if has_sub : bool then
        subdeeds <~ getitem deed "SubDeed" ;;
        entries <~ iter subdeeds ;;
        Ok (Some (fold_left (fun cd subdeed => _extract_subdeed_data subdeed cd)
                            entries company_data))
      else Ok (Some company_data).

Definition _extract_company_data (deed : pyval) : option company_dict :=
  match _extract_company_data_try deed with
  | Ok r => r
  | Raise _ => None
  end.

(** [if company_data:] *)
Definition dict_truthy (d : company_dict) : bool := negb (size d =? 0)%nat.

(** A [for] loop that extends the list [companies]. *)
Fixpoint for_acc (xs : list pyval)
    (body : pyval -> list company_dict -> res (list company_dict))
    (companies : list company_dict) : res (list company_dict) :=
  match xs with
  | [] => Ok companies
  | x :: rest => companies' <~ body x companies ;; for_acc rest body companies'
  end.

Definition deed_step (deed : pyval) (companies : list company_dict)
  : res (list company_dict) :=
  match _extract_company_data deed with
  | Some company_data =>
      if dict_truthy company_data then Ok (companies ++ [company_data])%list
      else Ok companies
  | None => Ok companies
  end.

Definition deeds_step (deeds : pyval) (companies : list company_dict)
  : res (list company_dict) :=
  has <~ contains "Deed" deeds ;;
  if negb has then Ok companies
  else
    deed_list <~ getitem deeds "Deed" ;;
    entries <~ iter deed_list ;;
    for_acc entries deed_step companies.

Definition body_step (body : pyval) (companies : list company_dict)
  : res (list company_dict) :=
  has <~ contains "Deeds" body ;;
  if negb has then Ok companies
  else
    deeds_list <~ getitem body "Deeds" ;;
    entries <~ iter deeds_list ;;
    for_acc entries deeds_step companies.

Definition message_step (message : pyval) (companies : list company_dict)
  : res (list company_dict) :=
  has <~ contains "Body" message ;;
  if negb has then Ok companies
  else
    bodies <~ getitem message "Body" ;;
    entries <~ iter bodies ;;
    for_acc entries body_step companies.

Definition parse_company_changes_try (daily_data : pyval) : res (list company_dict) :=
  has <~ contains "Message" daily_data ;;
  if negb has then Ok []
  else
    messages <~ getitem daily_data "Message" ;;
    entries <~ iter messages ;;
    for_acc entries message_step [].

(** [except Exception: ... return []] *)
Definition parse_company_changes (daily_data : pyval) : res (list company_dict) :=
  match parse_company_changes_try daily_data with
  | Ok companies => Ok companies
  | Raise _ => Ok []
  end.

End Parser.

(** ** Persistent store and services ([app/models.py], [app/services.py]) *)

Module Services.

Import Parser.

(** A row of table [companies]: column name to value. *)
Abbreviation row := (gmap string pyval).

(** A date written [%Y-%m-%d] is embedded as its ordinal
    ([date.toordinal()]), a [datetime] as its seconds since the start of
    ordinal day 0, so that midnight of day [d] is [d * 86400]. *)
Abbreviation date := Z.
Abbreviation datetime := Z.

Definition midnight (d : date) : datetime := d * 86400.

(** [datetime.strptime(date, "%Y-%m-%d").replace(hour, minute, second)] *)
Definition at_time (d : date) (hour minute second : Z) : datetime :=
  midnight d + hour * 3600 + minute * 60 + second.

(** A row of table [sync_history]. *)
Record SyncHistory : Type := {
  id : Z;
  sync_date : date;
  sync_type : string;
  status : string;
  records_processed : Z;
  records_created : Z;
  records_updated : Z;
  records_failed : Z;
  error_message : option string;
  started_at : datetime;
  completed_at : option datetime
}.

(** The keyword arguments the worker passes to [update_sync_record]. *)
Inductive kwarg : Type :=
  | Kstatus (v : string)
  | Kerror_message (v : string)
  | Kint (name : string) (v : Z).

Definition set_status (v : string) (r : SyncHistory) : SyncHistory :=
  {| id := id r; sync_date := sync_date r; sync_type := sync_type r; status := v;
     records_processed := records_processed r; records_created := records_created r;
     records_updated := records_updated r; records_failed := records_failed r;
     error_message := error_message r; started_at := started_at r;
     completed_at := completed_at r |}.

Definition set_error_message (v : string) (r : SyncHistory) : SyncHistory :=
  {| id := id r; sync_date := sync_date r; sync_type := sync_type r; status := status r;
     records_processed := records_processed r; records_created := records_created r;
     records_updated := records_updated r; records_failed := records_failed r;
     error_message := Some v; started_at := started_at r;
     completed_at := completed_at r |}.

Definition set_counts (p c u f : Z) (r : SyncHistory) : SyncHistory :=
  {| id := id r; sync_date := sync_date r; sync_type := sync_type r; status := status r;
     records_processed := p; records_created := c;
     records_updated := u; records_failed := f;
     error_message := error_message r; started_at := started_at r;
     completed_at := completed_at r |}.

(** One keyword of the [values] of an [update(SyncHistory)].  An integer
    keyword must name an integer column of the table; for any other name
    SQLAlchemy refuses the statement (unconsumed column names) with
    [CompileError]. *)
Definition apply_kwarg (k : kwarg) (r : SyncHistory) : res SyncHistory :=
  match k with
  | Kstatus v => Ok (set_status v r)
  | Kerror_message v => Ok (set_error_message v r)
  | Kint name v =>
      if String.eqb name "records_processed" then
        Ok (set_counts v (records_created r) (records_updated r) (records_failed r) r)
      else if String.eqb name "records_created" then
        Ok (set_counts (records_processed r) v (records_updated r) (records_failed r) r)
      else if String.eqb name "records_updated" then
        Ok (set_counts (records_processed r) (records_created r) v (records_failed r) r)
      else if String.eqb name "records_failed" then
        Ok (set_counts (records_processed r) (records_created r) (records_updated r) v r)
      else Raise CompileError
  end.

Fixpoint apply_kwargs (ks : list kwarg) (r : SyncHistory) : res SyncHistory :=
  match ks with
  | [] => Ok r
  | k :: rest => res_bind (apply_kwarg k r) (apply_kwargs rest)
  end.

(** What the worker does to the outside, in order: instrumentation of the
    model, not state of the program. *)
Inductive event : Type :=
  | EvDownload (d : date)
  | EvFetch (resource_id : string)
  | EvMerge (company : company_dict).

(** The database, the clock and the instrumentation. *)
Record world : Type := {
  companies : gmap string row;
  sync_history : list SyncHistory;
  activity_logs : list (string * string);
  utcnow : datetime;
  trace : list event
}.

Definition with_companies (w : world) (t : gmap string row) : world :=
  {| companies := t; sync_history := sync_history w;
     activity_logs := activity_logs w; utcnow := utcnow w; trace := trace w |}.

Definition with_sync_history (w : world) (h : list SyncHistory) : world :=
  {| companies := companies w; sync_history := h;
     activity_logs := activity_logs w; utcnow := utcnow w; trace := trace w |}.

Definition emit (e : event) (w : world) : world :=
  {| companies := companies w; sync_history := sync_history w;
     activity_logs := activity_logs w; utcnow := utcnow w;
     trace := (trace w ++ [e])%list |}.

(** [await asyncio.sleep(n)] *)
Definition sleep (n : Z) (w : world) : world :=
  {| companies := companies w; sync_history := sync_history w;
     activity_logs := activity_logs w; utcnow := utcnow w + n; trace := trace w |}.

(** [LogService.add_log_entry] *)
Definition add_log_entry (action details : string) (w : world) : world :=
  {| companies := companies w; sync_history := sync_history w;
     activity_logs := (activity_logs w ++ [(action, details)])%list;
     utcnow := utcnow w; trace := trace w |}.

(** *** SyncService *)

(** [Result.scalar_one_or_none()] *)
Definition scalar_one_or_none {A} (rows : list A) : res (option A) :=
  match rows with
  | [] => Ok None
  | [r] => Ok (Some r)
  | _ :: _ :: _ => Raise MultipleResultsFound
  end.

(** The two bounds on [started_at] shared by [is_date_synced] and
    [update_sync_record]. *)
Definition started_on (d : date) (r : SyncHistory) : bool :=
  (at_time d 0 0 0 <=? started_at r) && (started_at r <? at_time d 23 59 59).

Definition is_date_synced (d : date) (w : world) : bool :=
  let rows :=
    List.filter (fun r => String.eqb (sync_type r) "daily"
                          && String.eqb (status r) "completed"
                          && started_on d r) (sync_history w) in
  match scalar_one_or_none rows with
  | Ok (Some _) => true
  | Ok None => false
  | Raise _ => false
  end.

(** The key an autoincrement column gives the next row. *)
Definition next_id (h : list SyncHistory) : Z :=
  1 + fold_right (fun r m => Z.max (id r) m) 0 h.

Definition create_sync_record (d : date) (type : string) (w : world) : Z * world :=
  let sync_record :=
    {| id := next_id (sync_history w); sync_date := d; sync_type := type;
       status := "running"; records_processed := 0; records_created := 0;
       records_updated := 0; records_failed := 0; error_message := None;
       started_at := utcnow w; completed_at := None |} in
  (id sync_record, with_sync_history w (sync_history w ++ [sync_record])%list).

(** [ORDER BY started_at DESC] *)
Fixpoint insert_desc (r : SyncHistory) (rs : list SyncHistory) : list SyncHistory :=
  match rs with
  | [] => [r]
  | r' :: rest =>
      if started_at r' <? started_at r then r :: rs else r' :: insert_desc r rest
  end.

Definition order_by_started_at_desc (rs : list SyncHistory) : list SyncHistory :=
  fold_right insert_desc [] rs.

Definition update_where_id (i : Z) (r' : SyncHistory) (h : list SyncHistory)
  : list SyncHistory :=
  map (fun r => if id r =? i then r' else r) h.

Definition update_sync_record (d : date) (kwargs : list kwarg) (w : world)
  : bool * world :=
  let rows :=
    order_by_started_at_desc
      (List.filter (fun r => String.eqb (sync_type r) "daily" && started_on d r)
                   (sync_history w)) in
  match scalar_one_or_none rows with
  | Ok (Some sync_record) =>
      match apply_kwargs kwargs sync_record with
      | Ok r' =>
          (true, with_sync_history w (update_where_id (id sync_record) r' (sync_history w)))
      | Raise _ => (false, w)
      end
  | Ok None => (false, w)
  | Raise _ => (false, w)
  end.

End Services.

(** *** CompanyService *)

Module CompanyServices.

Import Parser Services.

(** [str(x)] inside an f-string, for the values a register identifier
    takes (a container is rendered by a placeholder). *)
Definition str (x : pyval) : string :=
  match x with
  | PStr s => s
  | PInt n => pretty n
  | PNone => "None"
  | PBool b => if b then "True" else "False"
  | PList _ => "[...]"
  | PDict _ => "{...}"
  end.

(** The columns of table [companies]. *)
Definition COLUMNS : list string :=
  ["uid"; "name"; "manager"; "address"; "legal_form"; "status";
   "registration_date"; "capital"; "main_activity"; "phone"; "email";
   "website"; "created_at"; "updated_at"].

Definition is_column (k : string) : bool := existsb (String.eqb k) COLUMNS.

Definition keys (d : gmap string pyval) : list string := (map_to_list d).*1.

(** [CompanyService(db, cache)]: the session is the [world]; the cache is
    whatever the caller passed, possibly [None]. *)
Record CompanyService : Type := { cache : option Cache.CacheService }.

Section WithLibraries.

Variable CACHE_TTL : Z.
Variable json_dumps : pyval -> res string.
Variable json_loads : string -> res pyval.

(** pydantic's [CompanyResponse] and its [model_validate]. *)
Variable CompanyResponse : Type.
Variable model_validate : pyval -> res CompanyResponse.

(** [bool(r)] for an instance of a pydantic model: the class defines
    neither [__bool__] nor [__len__]. *)
Definition response_truthy (r : CompanyResponse) : bool := true.

(** [select(Company).where(Company.uid == uid)]: the table is keyed by
    its primary key, a string. *)
Definition select_company (uid : pyval) (t : gmap string row) : option row :=
  match uid with
  | PStr key => t !! key
  | _ => None
  end.

Definition company_dict_of (company : row) : pyval :=
  PDict (map (fun c => (c, default PNone (company !! c))) COLUMNS).

(** [self.cache.get(...)], [self.cache.set(...)], [self.cache.delete(...)]:
    an attribute of [None] is an [AttributeError]. *)
Definition cache_get (self : CompanyService) (now : Z) (key : string)
  : res pyval * CompanyService :=
  match cache self with
  | None => (Raise AttributeError, self)
  | Some c =>
      let r := Cache.get CACHE_TTL json_loads c now key in
      (r.1, {| cache := Some r.2 |})
  end.

Definition cache_set (self : CompanyService) (now : Z) (key : string) (value : pyval)
    (ttl : option Z) : res bool * CompanyService :=
  match cache self with
  | None => (Raise AttributeError, self)
  | Some c =>
      let r := Cache.set CACHE_TTL json_dumps c now key value ttl in
      (Ok r.1, {| cache := Some r.2 |})
  end.

Definition cache_delete (self : CompanyService) (key : string)
  : res bool * CompanyService :=
  match cache self with
  | None => (Raise AttributeError, self)
  | Some c =>
      let r := Cache.delete c key in
      (Ok r.1, {| cache := Some r.2 |})
  end.

Definition get_company (self : CompanyService) (now : Z) (uid : pyval)
    (t : gmap string row) : res CompanyResponse * CompanyService :=
  let cache_key := "company:" +:+ str uid in
  match cache_get self now cache_key with
  | (Raise e, self1) => (Raise e, self1)
  | (Ok cached, self1) =>
      if truthy cached then (model_validate cached, self1)
      else
        match select_company uid t with
        | None => (Raise CompanyNotFound, self1)
        | Some company =>
            let company_dict := company_dict_of company in
            match cache_set self1 now cache_key company_dict (Some 3600) with
            | (Raise e, self2) => (Raise e, self2)
            | (Ok _, self2) => (model_validate company_dict, self2)
            end
        end
  end.

(** [except SQLAlchemyError: ... raise DatabaseError(...)] *)
Definition as_DatabaseError (e : exn) : exn :=
  if is_SQLAlchemyError e then DatabaseError else e.

Definition update_company_enrichment (self : CompanyService) (now : Z) (uid : pyval)
    (enrichment_data : gmap string pyval) (t : gmap string row)
  : res CompanyResponse * CompanyService * gmap string row :=
  match get_company self now uid t with
  | (Raise e, self1) => (Raise (as_DatabaseError e), self1, t)
  | (Ok _, self1) =>
      if forallb is_column (keys enrichment_data) then
        let t' := match uid with
                  | PStr key => alter (fun company => enrichment_data ∪ company) key t
                  | _ => t
                  end in
        match cache_delete self1 ("company:" +:+ str uid) with
        | (Raise e, self2) => (Raise (as_DatabaseError e), self2, t')
        | (Ok _, self2) =>
            match get_company self2 now uid t' with
            | (Raise e, self3) => (Raise (as_DatabaseError e), self3, t')
            | (Ok r, self3) => (Ok r, self3, t')
            end
        end
      else (Raise DatabaseError, self1, t)
  end.

(** [Company(...)] accepts the mapped columns as keywords and raises
    [TypeError] on any other; the insert of a key already present fails
    with [IntegrityError], whose handler calls [DuplicateCompanyError]
    with one argument of the two it requires, a [TypeError] again. *)
Definition create_company (self : CompanyService) (company_data : company_dict)
    (t : gmap string row) : res unit * CompanyService * gmap string row :=
  if forallb is_column (keys company_data) then
    match company_data !! "uid" with
    | Some (PStr key) =>
        match t !! key with
        | Some _ => (Raise TypeError, self, t)
        | None =>
            let t' := <[key := company_data]> t in
            match cache_delete self ("company:" +:+ key) with
            | (Raise e, self1) => (Raise e, self1, t')
            | (Ok _, self1) => (Ok tt, self1, t')
            end
        end
    | _ => (Raise DatabaseError, self, t)
    end
  else (Raise TypeError, self, t).

End WithLibraries.

End CompanyServices.

Module CompanyRemoval.

Import Parser Services CompanyServices.

Section WithLibraries.

Variable CACHE_TTL : Z.
Variable json_dumps : pyval -> res string.
Variable json_loads : string -> res pyval.
Variable CompanyResponse : Type.
Variable model_validate : pyval -> res CompanyResponse.

(** [CompanyService.delete_company]: the lookup, the [delete] statement
    and its commit, then the cache entry. *)
Definition delete_company (self : CompanyService) (now : Z) (uid : pyval)
    (t : gmap string row) : res bool * CompanyService * gmap string row :=
  match get_company CACHE_TTL json_dumps json_loads CompanyResponse model_validate
          self now uid t with
  | (Raise e, self1) => (Raise (as_DatabaseError e), self1, t)
  | (Ok _, self1) =>
      let t' := match uid with
                | PStr key => delete key t
                | _ => t
                end in
      match cache_delete self1 ("company:" +:+ str uid) with
      | (Raise e, self2) => (Raise (as_DatabaseError e), self2, t')
      | (Ok _, self2) => (Ok true, self2, t')
      end
  end.

End WithLibraries.

End CompanyRemoval.

(** ** The worker ([app/workers/daily_sync.py]) *)

Module DailySyncWorker.

Import Parser Services CompanyServices.

(** The one resource [get_available_dates] and [get_resource_by_date]
    know: 2025-08-14. *)
Definition KNOWN_DATE : date := 739477.
Definition KNOWN_RESOURCE : string := "cb1f6b5a-c553-48a2-ad25-65c3a0fb851d".

Definition get_available_dates : list (string * date) :=
  [(KNOWN_RESOURCE, KNOWN_DATE)].

Definition get_resource_by_date (target_date : date) : option string :=
  if target_date =? KNOWN_DATE then Some KNOWN_RESOURCE else None.

(** How one application of a change ended, as [update_database] and the
    per-date runs read it off the return value and the [is_new] mark. *)
Inductive outcome : Type := Created | Updated | Skipped.

(** [company.get('is_new', False)] *)
Definition is_new (company : company_dict) : bool :=
  truthy (default (PBool false) (company !! "is_new")).

Definition outcome_of (returned : bool) (company : company_dict) : outcome :=
  if returned then (if is_new company then Created else Updated) else Skipped.

(** [company.get(key)] *)
Definition field (company : company_dict) (key : string) : pyval :=
  default PNone (company !! key).

Definition is_None (x : pyval) : bool :=
  match x with PNone => true | _ => false end.

(** The dictionary [enrichment_data], before and after the comprehension
    that drops the [None] values. *)
Definition enrichment_fields : list string :=
  ["name"; "manager"; "address"; "legal_form"; "phone"; "email"; "website"].

Definition enrichment_data (company : company_dict) : gmap string pyval :=
  list_to_map
    (List.filter (fun kv => negb (is_None kv.2))
       (map (fun k => (k, field company k)) enrichment_fields)).

(** The value of a [list] returned by a function that never raises. *)
Definition returned {A} (r : res (list A)) : list A :=
  match r with Ok l => l | Raise _ => [] end.

Section WithEnvironment.

Variable CACHE_TTL : Z.
Variable json_dumps : pyval -> res string.
Variable json_loads : string -> res pyval.
Variable CompanyResponse : Type.
Variable model_validate : pyval -> res CompanyResponse.

(** The network part of [download_daily_data] for a resource: both
    requests, [_extract_download_link] and the decoding of the body;
    [None] whenever any of them fails. *)
Variable fetch_resource : string -> option pyval.

(** The reading of the event loop's clock. *)
Variable loop_time : Z.

Definition download_daily_data (d : date) (w : world) : option pyval * world :=
  let w := emit (EvDownload d) w in
  match get_resource_by_date d with
  | None => (None, w)
  | Some resource_id => (fetch_resource resource_id, emit (EvFetch resource_id) w)
  end.

(** The [try] block of [_update_single_company].  The service is built
    with [None] for its cache; class [CompanyService] defines no method
    [enrich_company], so that attribute access raises. *)
Definition _update_single_company_try (company : company_dict) (t : gmap string row)
  : res bool * company_dict * gmap string row :=
  let company_service := {| cache := None |} in
  match company !! "uid" with
  | None => (Raise KeyError, company, t)
  | Some uid =>
      match get_company CACHE_TTL json_dumps json_loads CompanyResponse model_validate
              company_service loop_time uid t with
      | (Raise e, _) => (Raise e, company, t)
      | (Ok existing_company, company_service) =>
          if response_truthy CompanyResponse existing_company then
            let enrichment_data := enrichment_data company in
            if negb (size enrichment_data =? 0)%nat then
              (Raise AttributeError, company, t)
            else (Ok false, company, t)
          else
            if truthy (field company "name") && truthy (field company "uid") then
              match create_company company_service company t with
              | (Raise e, _, t') => (Raise e, company, t')
              | (Ok _, _, t') => (Ok true, <["is_new" := PBool true]> company, t')
              end
            else (Ok false, company, t)
      end
  end.

Definition _update_single_company (company : company_dict) (w : world)
  : bool * company_dict * world :=
  let w := emit (EvMerge company) w in
  match _update_single_company_try company (Services.companies w) with
  | (Ok b, company', t') => (b, company', with_companies w t')
  | (Raise _, company', t') => (false, company', with_companies w t')
  end.

(** The loop of [update_database]; the dictionaries of [companies] are
    marked in place, so the marked list is returned with the counters. *)
Fixpoint update_database_loop (companies : list company_dict)
    (updated_count created_count : Z) (w : world)
  : list company_dict * Z * Z * world :=
  match companies with
  | [] => ([], updated_count, created_count, w)
  | company :: rest =>
      let '(b, company', w1) := _update_single_company company w in
      let '(u, c) :=
        if b then
          (if is_new company' then (updated_count, created_count + 1)
           else (updated_count + 1, created_count))
        else (updated_count, created_count) in
      let '(rest', u', c', w2) := update_database_loop rest u c w1 in
      (company' :: rest', u', c', w2)
  end.

Definition update_database (companies : list company_dict) (w : world)
  : Z * list company_dict * world :=
  let '(companies', updated_count, created_count, w') :=
        update_database_loop companies 0 0 w in
  (updated_count + created_count, companies', w').

Definition count_new (companies : list company_dict) : Z :=
  Z.of_nat (length (List.filter is_new companies)).

Definition count_not_new (companies : list company_dict) : Z :=
  Z.of_nat (length (List.filter (fun c => negb (is_new c)) companies)).

(** The keywords of the update that closes a run with changes. *)
Definition completed_kwargs (companies : list company_dict) : list kwarg :=
  [Kstatus "completed";
   Kint "companies_processed" (Z.of_nat (length companies));
   Kint "companies_updated" (count_not_new companies);
   Kint "companies_created" (count_new companies)].

(** What every run does with a payload that was downloaded: the branch
    [if daily_data:] up to the log entry (message texts are kept without
    their interpolated values). *)
Definition process_daily_data (d : date) (action : string) (daily_data : pyval)
    (w : world) : Z * world :=
  let companies := returned (parse_company_changes daily_data) in
  match companies with
  | _ :: _ =>
      let '(processed_count, companies', w1) := update_database companies w in
      let w2 := (update_sync_record d (completed_kwargs companies') w1).2 in
      (processed_count, add_log_entry action "sync completed" w2)
  | [] =>
      (0, (update_sync_record d [Kstatus "completed"; Kint "companies_processed" 0] w).2)
  end.

Definition run_daily_sync (today : date) (w : world) : world :=
  if is_date_synced today w then w
  else
    let '(sync_id, w1) := create_sync_record today "daily" w in
    if existsb (fun r => r.2 =? today) get_available_dates then
      let '(daily_data, w2) := download_daily_data today w1 in
      match daily_data with
      | Some data =>
          if truthy data then (process_daily_data today "daily_sync" data w2).2
          else (update_sync_record today
                  [Kstatus "failed"; Kerror_message "Failed to download data"] w2).2
      | None =>
          (update_sync_record today
             [Kstatus "failed"; Kerror_message "Failed to download data"] w2).2
      end
    else
      (update_sync_record today [Kstatus "completed"; Kint "companies_processed" 0] w1).2.

(** One date of a historical or specific run, after its record has been
    created. *)
Definition sync_one_date (d : date) (action : string) (w : world) : Z * world :=
  let '(daily_data, w1) := download_daily_data d w in
  match daily_data with
  | Some data =>
      if truthy data then process_daily_data d action data w1
      else (0, (update_sync_record d
                  [Kstatus "failed"; Kerror_message "No data available"] w1).2)
  | None =>
      (0, (update_sync_record d
             [Kstatus "failed"; Kerror_message "No data available"] w1).2)
  end.

Fixpoint historical_loop (dates_to_sync : list date) (total_processed : Z) (w : world)
  : Z * world :=
  match dates_to_sync with
  | [] => (total_processed, w)
  | d :: rest =>
      let '(sync_id, w1) := create_sync_record d "historical" w in
      let '(processed_count, w2) := sync_one_date d "historical_sync" w1 in
      historical_loop rest (total_processed + processed_count) (sleep 1 w2)
  end.

Definition run_historical_sync (today : date) (days_back : nat) (w : world) : world :=
  let dates_to_sync :=
    List.filter (fun d => negb (is_date_synced d w))
      (map (fun i => today - Z.of_nat i) (seq 0 days_back)) in
  match dates_to_sync with
  | [] => w
  | _ =>
      let '(total_processed, w1) := historical_loop dates_to_sync 0 w in
      add_log_entry "historical_sync" "Historical sync completed" w1
  end.

Definition run_sync_for_date (target_date : date) (w : world) : world :=
  let '(sync_id, w1) := create_sync_record target_date "specific" w in
  (sync_one_date target_date "specific_sync" w1).2.

End WithEnvironment.

End DailySyncWorker.

(** ** Enrichment of single entities ([app/enrichment.py]) *)

Module EnrichmentStore.

(** The dictionary [_enrichment_cache]: identifier to the pair of the
    mapped data and the time it was stored.  A [datetime] is its number
    of microseconds, the resolution of [datetime.now()], and
    [timedelta(hours=n)] is [hours n]. *)
Abbreviation enrichment_cache := (gmap string (gmap string pyval * Z)).

Definition hours (n : Z) : Z := n * 3600000000.

Section WithConfig.

Variable CACHE_TTL : Z.

Definition is_cache_valid (now : Z) (uid : string) (c : enrichment_cache) : bool :=
  match c !! uid with
  | None => false
  | Some (_, timestamp) => now - timestamp <? hours CACHE_TTL
  end.

Definition get_cached_enrichment (now : Z) (uid : string) (c : enrichment_cache)
  : res (option (gmap string pyval)) :=
  if is_cache_valid now uid c then
    match c !! uid with
    | Some (enrichment_data, _) => Ok (Some enrichment_data)
    | None => Raise KeyError
    end
  else Ok None.

(** The comprehension [expired_uids] of [cleanup_old_cache]. *)
Definition old (cutoff_time : Z) (entry : string * (gmap string pyval * Z)) : Prop :=
  entry.2.2 < cutoff_time.

#[local] Instance old_dec cutoff_time entry : Decision (old cutoff_time entry).
Proof. unfold old. apply _. Defined.

Definition expired_uids (now : Z) (c : enrichment_cache) : list string :=
  (map_to_list (filter (old (now - hours (CACHE_TTL * 2))) c)).*1.

(** [for uid in expired_uids: del _enrichment_cache[uid]] *)
Fixpoint del_uids (uids : list string) (c : enrichment_cache)
  : res unit * enrichment_cache :=
  match uids with
  | [] => (Ok tt, c)
  | uid :: rest =>
      match c !! uid with
      | Some _ => del_uids rest (delete uid c)
      | None => (Raise KeyError, c)
      end
  end.

Definition cleanup_old_cache (now : Z) (c : enrichment_cache)
  : res unit * enrichment_cache :=
  del_uids (expired_uids now c) c.

(** [cache_enrichment] reads the clock twice: [now] for the entry, [now']
    in the sweep that follows. *)
Definition cache_enrichment (now now' : Z) (uid : string)
    (enrichment_data : gmap string pyval) (c : enrichment_cache)
  : res unit * enrichment_cache :=
  cleanup_old_cache now' (<[uid := (enrichment_data, now)]> c).

End WithConfig.

End EnrichmentStore.

Module RegistryMapping.

Import Parser.

(** The dictionary [mapped_data]. *)
Abbreviation mapped := (gmap string pyval).

(** [re.sub(r'<[^>]+>', '', s)]: every leftmost run that opens with [<],
    goes on with one or more characters other than [>] and closes with
    [>] is removed.  [pending] holds, in reverse, the characters read
    since a [<] that has not met its [>] yet. *)
Fixpoint remove_tags (cs : list ascii) (pending : option (list ascii)) : list ascii :=
  match cs with
  | [] =>
      match pending with
      | None => []
      | Some buf => "<"%char :: rev buf
      end
  | c :: rest =>
      match pending with
      | None =>
          if Ascii.eqb c "<" then remove_tags rest (Some [])
          else c :: remove_tags rest None
      | Some buf =>
          if Ascii.eqb c ">" then
            match buf with
            | [] => "<"%char :: ">"%char :: remove_tags rest None
            | _ :: _ => remove_tags rest None
            end
          else remove_tags rest (Some (c :: buf))
      end
  end.

Definition re_sub_tags (s : string) : string :=
  string_of_list_ascii (remove_tags (list_ascii_of_string s) None).

(** [re.sub(r'<[^>]+>', '', html_data).strip()] *)
Definition text_content_of (html_data : pyval) : res pyval :=
  match html_data with
  | PStr s => Ok (PStr (strip_string (re_sub_tags s)))
  | _ => Raise TypeError
  end.

(** [x.get(k, '')] *)
Definition get_or_empty (x : pyval) (k : string) : res pyval :=
  match x with
  | PDict kvs => Ok (default (PStr "") (dict_lookup k kvs))
  | _ => Raise AttributeError
  end.

(** The body of the innermost loop. *)
Definition field_step (field : pyval) (mapped_data : mapped) : res mapped :=
  name_code <~ get_or_empty field "nameCode" ;;
  html_data <~ get_or_empty field "htmlData" ;;
  text_content <~ text_content_of html_data ;;
  Ok (if is_str "CR_F_3_L" name_code then <["legal_form" := text_content]> mapped_data
      else if is_str "CR_F_5_L" name_code then <["address" := text_content]> mapped_data
      else if is_str "CR_F_6_L" name_code then
        <["main_activity" := text_content]> mapped_data
      else if is_str "CR_F_7_L" name_code then <["manager" := text_content]> mapped_data
      else if is_str "CR_F_31_L" name_code then <["capital" := text_content]> mapped_data
      else mapped_data).

Fixpoint for_mapped (xs : list pyval) (body : pyval -> mapped -> res mapped)
    (mapped_data : mapped) : res mapped :=
  match xs with
  | [] => Ok mapped_data
  | x :: rest => m <~ body x mapped_data ;; for_mapped rest body m
  end.

(** [if key in node: for item in node[key]: body] *)
Definition for_in (key : string) (node : pyval)
    (body : pyval -> mapped -> res mapped) (mapped_data : mapped) : res mapped :=
  has <~ contains key node ;;
  if has : bool then
    items <~ getitem node key ;;
    xs <~ iter items ;;
    for_mapped xs body mapped_data
  else Ok mapped_data.

Definition group_step (group : pyval) : mapped -> res mapped :=
  for_in "fields" group field_step.

Definition subdeed_step (subdeed : pyval) : mapped -> res mapped :=
  for_in "groups" subdeed group_step.

Definition section_step (section : pyval) : mapped -> res mapped :=
  for_in "subDeeds" section subdeed_step.

Definition legal_form_map : list (Z * string) :=
  [(10, "Еднолично дружество с ограничена отговорност");
   (20, "Дружество с ограничена отговорност");
   (30, "Акционерно дружество");
   (40, "Командитно дружество");
   (50, "Командитно дружество с акции")].

Definition status_map : list (Z * string) :=
  [(1, "Активен"); (2, "Неактивен"); (3, "В процес на закриване")].

Definition table_get (n : Z) (table : list (Z * string)) : option string :=
  snd <$> List.find (fun entry => entry.1 =? n) table.

(** [num in table] followed by [table[num]], for a table keyed by
    integers: [True] and [False] hash and compare as 1 and 0, a string or
    [None] is no key of the table, a list or a dictionary cannot be
    hashed. *)
Definition table_lookup (num : pyval) (table : list (Z * string))
  : res (option string) :=
  match num with
  | PInt n => Ok (table_get n table)
  | PBool b => Ok (table_get (if b then 1 else 0) table)
  | PNone | PStr _ => Ok None
  | PList _ | PDict _ => Raise TypeError
  end.

(** [if key in registry_data: num = registry_data[key];
     if num in table: mapped_data[target] = table[num]] *)
Definition map_code (key target : string) (table : list (Z * string))
    (registry_data : pyval) (mapped_data : mapped) : res mapped :=
  has <~ contains key registry_data ;;
  if has : bool then
    num <~ getitem registry_data key ;;
    name <~ table_lookup num table ;;
    Ok (match name with
        | Some s => <[target := PStr s]> mapped_data
        | None => mapped_data
        end)
  else Ok mapped_data.

(** The [try] block of [map_registry_data]. *)
Definition map_registry_data_try (registry_data : pyval) : res mapped :=
  has_name <~ contains "companyName" registry_data ;;
  m1 <~ (if has_name : bool then
           company_name <~ getitem registry_data "companyName" ;;
           Ok (<["name" := company_name]> (∅ : mapped))
         else Ok ∅) ;;
  m2 <~ for_in "sections" registry_data section_step m1 ;;
  m3 <~ map_code "legalForm" "legal_form" legal_form_map registry_data m2 ;;
  map_code "deedStatus" "status" status_map registry_data m3.

(** [except Exception: ... return {}] *)
Definition map_registry_data (registry_data : pyval) : mapped :=
  match map_registry_data_try registry_data with
  | Ok mapped_data => mapped_data
  | Raise _ => ∅
  end.

End RegistryMapping.

(** * Vocabulary of the statements *)

Module CacheVocabulary.

Import Cache.

(** The in-memory tier of a fresh [CacheService]. *)
Definition empty_fallback : fallback :=
  {| _fallback_cache := ∅; _fallback_timestamps := ∅ |}.

(** The two dictionaries have the same keys. *)
Definition coherent (st : fallback) : Prop :=
  dom (_fallback_timestamps st) = dom (_fallback_cache st).

(** A sequence of calls of [_set_fallback], each with its clock reading. *)
Fixpoint set_all (CACHE_TTL : Z) (ops : list (Z * string * pyval)) (st : fallback)
  : fallback :=
  match ops with
  | [] => st
  | (now, key, value) :: rest =>
      set_all CACHE_TTL rest (_set_fallback CACHE_TTL now key value None st).2
  end.

(** A primary tier that is down: every call raises. *)
Definition failing_redis : redis :=
  {| redis_get := fun _ => Raise ConnectError;
     redis_setex := fun _ _ _ => Raise ConnectError;
     redis_delete := fun _ => Raise ConnectError;
     redis_exists := fun _ => Raise ConnectError;
     redis_incr := fun _ _ => Raise ConnectError;
     redis_expire := fun _ _ => Raise ConnectError;
     redis_ping := Raise ConnectError |}.

(** [n] distinct keys. *)
Definition numbered_keys (n : nat) : list string :=
  map (fun i : nat => pretty i) (seq 0 n).

(** A dictionary without the keys [ks]. *)
Definition without (ks : list string) {A} (m : gmap string A) : gmap string A :=
  filter (fun kv => kv.1 ∉ ks) m.

(** The first two assignments of [_set_fallback]. *)
Definition inserted (now : Z) (key : string) (value : pyval) (st : fallback) : fallback :=
  {| _fallback_cache := <[key := value]> (_fallback_cache st);
     _fallback_timestamps := <[key := now]> (_fallback_timestamps st) |}.

End CacheVocabulary.

Module ParserVocabulary.

Import Parser.

(** The change-feed schema: messages hold bodies, bodies hold deed
    groups, deed groups hold deed nodes.  [feed] wraps given deed nodes in
    well-formed containers. *)
Definition deeds_node (deeds : list pyval) : pyval :=
  PDict [("Deed", PList deeds)].

Definition body_node (groups : list (list pyval)) : pyval :=
  PDict [("Deeds", PList (map deeds_node groups))].

Definition message_node (bodies : list (list (list pyval))) : pyval :=
  PDict [("Body", PList (map body_node bodies))].

Definition feed (messages : list (list (list (list pyval)))) : pyval :=
  PDict [("Message", PList (map message_node messages))].

(** The deed nodes of a feed, in document order. *)
Definition deeds_of (messages : list (list (list (list pyval)))) : list pyval :=
  concat (concat (concat messages)).

(** A deed node that yields no record. *)
Definition yields_nothing (deed : pyval) : bool :=
  match _extract_company_data deed with
  | None => true
  | Some _ => false
  end.

(** The keys, other than [phone], that the blocks of
    [_extract_subdeed_data] write. *)
Definition plain_key (key : string) : Prop :=
  key = "manager" \/ key = "address" \/ key = "email" \/ key = "website".

(** A computation keeps the property [I] of [company_data], also when it
    raises. *)
Definition preserves (I : company_dict -> Prop) {A} (m : M A) : Prop :=
  forall st, I st -> I (m st).2.

(** The phone of an extracted record: null, or the trimmed form of a raw
    value other than the placeholder. *)
Definition phone_ok (v : option pyval) : Prop :=
  v = Some PNone \/ exists raw, raw <> REDACTED /\ v = Some (PStr (strip_string raw)).

(** A deed node with one sub-deed, one seat and the given contacts. *)
Definition deed_with_contacts (uid name : string) (contacts : list (string * pyval))
  : pyval :=
  PDict [("$", PDict [("UIC", PStr uid); ("CompanyName", PStr name)]);
         ("SubDeed", PList [PDict [("Seat", PList [PDict [("Contacts",
            PList [PDict contacts])]])]])].

(** Ten deed nodes, the fifth of which has no [UIC]. *)
Definition deed_without_uic : pyval :=
  PDict [("$", PDict [("CompanyName", PStr "NoId")])].

Definition ten_deeds : list pyval :=
  [deed_with_contacts "100000001" "A" []; deed_with_contacts "100000002" "B" [];
   deed_with_contacts "100000003" "C" []; deed_with_contacts "100000004" "D" [];
   deed_without_uic;
   deed_with_contacts "100000006" "F" []; deed_with_contacts "100000007" "G" [];
   deed_with_contacts "100000008" "H" []; deed_with_contacts "100000009" "I" [];
   deed_with_contacts "100000010" "J" []].

End ParserVocabulary.

Module WorkerVocabulary.

Import Services DailySyncWorker.

(** A database with no row, at the start of 2025-08-14 (UTC). *)
Definition empty_world : world :=
  {| companies := ∅; sync_history := []; activity_logs := [];
     utcnow := midnight KNOWN_DATE; trace := [] |}.

(** The change of a first-seen entity. *)
Definition acme_change : gmap string pyval :=
  Parser.new_company_data (PStr "175074752") (PStr "ACME") PNone PNone.

(** A stored entity with a phone and no e-mail address, and a change for
    it with an e-mail address and no phone. *)
Definition acme_row : gmap string pyval :=
  <["phone" := PStr "555"]> acme_change.

Definition acme_world : world :=
  {| companies := {["175074752" := acme_row]}; sync_history := [];
     activity_logs := []; utcnow := midnight KNOWN_DATE; trace := [] |}.

Definition acme_email_change : gmap string pyval :=
  <["email" := PStr "a@b.com"]> acme_change.

(** An environment for closed statements: a network that is down, and
    library functions that succeed. *)
Definition offline (resource_id : string) : option pyval := None.
Definition dumps_ok (value : pyval) : res string := Ok "{}".
Definition loads_ok (bytes : string) : res pyval := Ok (PDict []).
Definition validate_ok (value : pyval) : res pyval := Ok value.

(** A network that serves one feed with one deed node. *)
Definition online (resource_id : string) : option pyval :=
  Some (ParserVocabulary.feed
          [[[[ParserVocabulary.deed_with_contacts "175074752" "ACME" []]]]]).

(** A closed daily record for day [d] that started at [started]. *)
Definition completed_daily (i : Z) (d : date) (started : datetime) : SyncHistory :=
  {| id := i; sync_date := d; sync_type := "daily"; status := "completed";
     records_processed := 0; records_created := 0; records_updated := 0;
     records_failed := 0; error_message := None; started_at := started;
     completed_at := None |}.

Definition world_with (h : list SyncHistory) : world :=
  {| companies := ∅; sync_history := h; activity_logs := [];
     utcnow := midnight KNOWN_DATE; trace := [] |}.

(** The rows [is_date_synced] selects. *)
Definition completed_daily_started_on (d : date) (r : SyncHistory) : bool :=
  String.eqb (sync_type r) "daily" && String.eqb (status r) "completed"
  && started_on d r.

(** A completed daily record whose [sync_date] is [d]. *)
Definition completed_daily_for (d : date) (r : SyncHistory) : bool :=
  String.eqb (sync_type r) "daily" && String.eqb (status r) "completed"
  && (sync_date r =? d).

Definition is_fetch (e : event) : bool :=
  match e with EvDownload _ | EvFetch _ => true | EvMerge _ => false end.

Definition is_merge (e : event) : bool :=
  match e with EvMerge _ => true | _ => false end.

End WorkerVocabulary.

Module RecordVocabulary.

Import Parser.

(** The keys of the dictionary literal in [_extract_company_data]. *)
Definition RECORD_KEYS : gset string :=
  {["uid"; "name"; "legal_form"; "status"; "manager"; "address"; "phone"; "email"]}.

(** A sub-deed with manager entries of the given names. *)
Definition manager_entry (name : string) : pyval := PDict [("_", PStr name)].

Definition managers_subdeed (names : list string) : pyval :=
  PDict [("Managers", PList (map manager_entry names))].

(** A name that [manager_name and manager_name.strip()] rejects. *)
Definition blank (name : string) : bool := String.eqb (strip_string name) "".

Definition first_nonblank (names : list string) : option string :=
  List.find (fun name => negb (blank name)) names.

(** A sub-deed with one seat whose address has the four components; an
    empty string stands for a component that is empty. *)
Definition address_subdeed (settlement street number postcode : string) : pyval :=
  PDict [("Seat", PList [PDict [("Address",
    PDict [("Settlement", PStr settlement); ("Street", PStr street);
           ("StreetNumber", PStr number); ("PostCode", PStr postcode)])]])].

Definition nonempty (s : string) : bool := negb (String.eqb s "").

(** A value stored by a block that trims: the trimmed form of a raw
    string, and not empty. *)
Definition trimmed (v : pyval) : Prop :=
  exists raw, v = PStr (strip_string raw) /\ strip_string raw <> "".

Definition null_or_trimmed (v : option pyval) : Prop :=
  v = Some PNone \/ exists x, v = Some x /\ trimmed x.

Definition absent_or_trimmed (v : option pyval) : Prop :=
  v = None \/ exists x, v = Some x /\ trimmed x.

End RecordVocabulary.

Module RunVocabulary.

Import Services DailySyncWorker.

(** The dates of the downloads in a sequence of outside actions. *)
Definition downloads (t : list event) : list date :=
  omap (fun e => match e with EvDownload d => Some d | _ => None end) t.

(** The dates a historical run looks at, the most recent first, and
    those of them that read as not synced in [w]. *)
Definition window (today : date) (days_back : nat) : list date :=
  map (fun i => today - Z.of_nat i) (seq 0 days_back).

Definition unsynced (w : world) (dates : list date) : list date :=
  List.filter (fun d => negb (is_date_synced d w)) dates.

(** What a record tells of its run. *)
Definition summary (r : SyncHistory)
  : date * string * string * option string * option datetime :=
  (sync_date r, sync_type r, status r, error_message r, completed_at r).

(** A daily record for day [d] that started at [started] and failed. *)
Definition failed_daily (i : Z) (d : date) (started : datetime) : SyncHistory :=
  {| id := i; sync_date := d; sync_type := "daily"; status := "failed";
     records_processed := 0; records_created := 0; records_updated := 0;
     records_failed := 0; error_message := Some "Failed to download data";
     started_at := started; completed_at := None |}.

(** The history is [n] rows followed by the rows [news], none of them a
    daily record, whose keys are above the keys of the rows before
    them. *)
Definition owns (n : nat) (news : list SyncHistory) (history : list SyncHistory)
  : Prop :=
  Forall (fun x => sync_type x <> "daily") news /\
  exists h, history = (h ++ news)%list /\ length h = n /\
            Forall (fun r => Forall (fun x => id r < id x) news) h.

End RunVocabulary.

Module EnrichmentVocabulary.

(** The keys [map_registry_data] can set. *)
Definition MAPPED_KEYS : gset string :=
  {["name"; "legal_form"; "address"; "main_activity"; "manager"; "capital"; "status"]}.

(** A registry answer with one field in one group, sub-deed and
    section, beside the entries [top]. *)
Definition registry_answer (top : list (string * pyval)) (name_code html_data : string)
  : pyval :=
  PDict (top ++
         [("sections", PList [PDict [("subDeeds", PList [PDict [("groups",
            PList [PDict [("fields",
              PList [PDict [("nameCode", PStr name_code);
                            ("htmlData", PStr html_data)]])]])]])]])])%list.

End EnrichmentVocabulary.

(** * Properties *)

(** ** Registry client *)

Section EnrichmentFacts.

Import Enrichment.

Variable client_get : string -> http_outcome.
Variable uid : string.

Lemma fetch_registry_data_cases :
  fetch_registry_data client_get uid =
    match client_get (REGISTRY_API_URL +:+ "/" +:+ uid) with
    | Response status (Ok doc) => if status =? 200 then Ok doc else Ok PNone
    | _ => Ok PNone
    end.
Proof.
  unfold fetch_registry_data, fetch_registry_data_try.
  destruct (client_get _) as [status body | e].
  - destruct (status =? 200).
    + destruct body as [doc | e]; [reflexivity | by destruct e].
    + destruct (status =? 404); by destruct body.
  - by destruct e.
Qed.

End EnrichmentFacts.

(** C10.  [fetch_registry_data] never raises.  It returns the decoded
    document when the registry answers 200 (and the body decodes), and
    [None] in every other case: 404, any other status, a timeout, any
    other exception, among them a body that does not decode.  So an absent
    entity (404) and a failure of the service (500, timeout) give the
    caller the same value. *)
Theorem fetch_registry_data_never_raises_none_unless_200 :
  forall (client_get : string -> Enrichment.http_outcome) (uid : string),
    let url := Enrichment.REGISTRY_API_URL +:+ "/" +:+ uid in
    let result := Enrichment.fetch_registry_data client_get uid in
    (exists v, result = Ok v) /\
    (forall doc, client_get url = Enrichment.Response 200 (Ok doc) -> result = Ok doc) /\
    (forall doc, result = Ok doc -> doc <> PNone ->
       client_get url = Enrichment.Response 200 (Ok doc)) /\
    (forall status body, client_get url = Enrichment.Response status body ->
       status <> 200 -> result = Ok PNone) /\
    (forall e, client_get url = Enrichment.Response 200 (Raise e) -> result = Ok PNone) /\
    (forall e, client_get url = Enrichment.HttpRaise e -> result = Ok PNone).
Proof.
  intros client_get uid url result.
  assert (Hc := fetch_registry_data_cases client_get uid).
  fold url result in Hc.
  repeat split.
  - rewrite Hc. destruct (client_get url) as [s [doc | e] | e]; eauto.
    destruct (s =? 200); eauto.
  - intros doc H. by rewrite Hc, H.
  - intros doc H Hn. rewrite Hc in H.
    destruct (client_get url) as [s [d | e] | e]; try congruence.
    destruct (Z.eqb_spec s 200); congruence.
  - intros s body H Hn. rewrite Hc, H. destruct body; [| reflexivity].
    destruct (Z.eqb_spec s 200); [lia | reflexivity].
  - intros e H. by rewrite Hc, H.
  - intros e H. by rewrite Hc, H.
Qed.

(** The three replies below are told apart by nobody who only sees the
    value returned. *)
Example fetch_registry_data_404_500_timeout :
  Enrichment.fetch_registry_data (fun _ => Enrichment.Response 404 (Ok PNone)) "175074752" = Ok PNone /\
  Enrichment.fetch_registry_data (fun _ => Enrichment.Response 500 (Ok PNone)) "175074752" = Ok PNone /\
  Enrichment.fetch_registry_data (fun _ => Enrichment.HttpRaise TimeoutException) "175074752" = Ok PNone /\
  Enrichment.fetch_registry_data
    (fun _ => Enrichment.Response 200 (Ok (PDict [("companyName", PStr "ACME")]))) "175074752"
    = Ok (PDict [("companyName", PStr "ACME")]).
Proof. repeat split. Qed.

(** ** In-memory tier of the cache *)

Section FallbackFacts.

Import Cache CacheVocabulary.

Variable CACHE_TTL : Z.

Implicit Types (st : fallback) (key k : string).

Lemma del_entry_coherent st key :
  coherent st -> key ∈ dom (_fallback_timestamps st) ->
  del_entry key st =
    (Ok tt, {| _fallback_cache := base.delete key (_fallback_cache st);
               _fallback_timestamps := base.delete key (_fallback_timestamps st) |}).
Proof.
  unfold coherent, del_entry. intros Hco Hin.
  assert (Hin' : key ∈ dom (_fallback_cache st)) by (by rewrite <- Hco).
  apply elem_of_dom in Hin as [t ->]. apply elem_of_dom in Hin' as [v ->].
  reflexivity.
Qed.

Lemma without_nil {A} (m : gmap string A) : without [] m = m.
Proof.
  apply map_eq. intros i. apply option_eq. intros v. unfold without.
  rewrite map_lookup_filter_Some. cbn. split; [by intros [? _] |].
  intros H. split; [done | apply not_elem_of_nil].
Qed.

Lemma without_cons {A} k ks (m : gmap string A) :
  without (k :: ks) m = without ks (base.delete k m).
Proof.
  apply map_eq. intros i. apply option_eq. intros v. unfold without.
  rewrite !map_lookup_filter_Some, lookup_delete_Some. cbn.
  rewrite not_elem_of_cons. intuition congruence.
Qed.

Lemma del_entries_coherent ks st :
  NoDup ks -> (forall k, k ∈ ks -> k ∈ dom (_fallback_timestamps st)) -> coherent st ->
  del_entries ks st =
    (Ok tt, {| _fallback_cache := without ks (_fallback_cache st);
               _fallback_timestamps := without ks (_fallback_timestamps st) |}).
Proof.
  intros Hnd. revert st. induction Hnd as [| k ks Hk Hnd IH]; intros st Hin Hco.
  - simpl. rewrite !without_nil. by destruct st.
  - simpl. rewrite del_entry_coherent by (auto; apply Hin; left).
    rewrite IH; simpl.
    + by rewrite !without_cons.
    + intros k' Hk'. rewrite dom_delete. apply elem_of_difference. split.
      * apply Hin. by right.
      * intros ->%elem_of_singleton. done.
    + unfold coherent in *. simpl. by rewrite !dom_delete_L, Hco.
Qed.

Lemma elem_of_expired_keys now st k :
  k ∈ expired_keys CACHE_TTL now st <->
  exists t, _fallback_timestamps st !! k = Some t /\ now - t > CACHE_TTL * 3600.
Proof.
  unfold expired_keys. rewrite list_elem_of_fmap. split.
  - intros [[k' t] [-> Hin]]. apply elem_of_map_to_list in Hin.
    apply map_lookup_filter_Some in Hin as [Hl He]. by exists t.
  - intros [t [Hl He]]. exists (k, t). split; [done |].
    apply elem_of_map_to_list, map_lookup_filter_Some. done.
Qed.

Lemma cleanup_coherent now st :
  coherent st ->
  _cleanup_fallback_cache CACHE_TTL now st =
    (Ok tt,
     {| _fallback_cache := without (expired_keys CACHE_TTL now st) (_fallback_cache st);
        _fallback_timestamps :=
          without (expired_keys CACHE_TTL now st) (_fallback_timestamps st) |}).
Proof.
  intros Hco. unfold _cleanup_fallback_cache. apply del_entries_coherent; [| | done].
  - unfold expired_keys. apply NoDup_fst_map_to_list.
  - intros k [t [Hl _]]%elem_of_expired_keys. apply elem_of_dom. eauto.
Qed.

Lemma coherent_without ks st :
  coherent st ->
  coherent {| _fallback_cache := without ks (_fallback_cache st);
              _fallback_timestamps := without ks (_fallback_timestamps st) |}.
Proof.
  unfold coherent, without. simpl. intros Hco. apply set_eq. intros k.
  rewrite !elem_of_dom. unfold is_Some.
  setoid_rewrite map_lookup_filter_Some. simpl.
  split; intros [x [Hx Hn]].
  - assert (Hd : k ∈ dom (_fallback_cache st)) by (rewrite <- Hco; apply elem_of_dom; eauto).
    apply elem_of_dom in Hd as [v Hv]. eauto.
  - assert (Hd : k ∈ dom (_fallback_timestamps st)) by (rewrite Hco; apply elem_of_dom; eauto).
    apply elem_of_dom in Hd as [v Hv]. eauto.
Qed.

Lemma coherent_inserted now key value st : coherent st -> coherent (inserted now key value st).
Proof. unfold coherent. simpl. intros Hco. by rewrite !dom_insert_L, Hco. Qed.

Lemma set_fallback_coherent now key value ttl st :
  coherent st ->
  _set_fallback CACHE_TTL now key value ttl st =
    (true,
     if (FALLBACK_CAP <? size (_fallback_cache (inserted now key value st)))%nat then
       let st1 := inserted now key value st in
       {| _fallback_cache := without (expired_keys CACHE_TTL now st1) (_fallback_cache st1);
          _fallback_timestamps :=
            without (expired_keys CACHE_TTL now st1) (_fallback_timestamps st1) |}
     else inserted now key value st).
Proof.
  intros Hco. unfold _set_fallback. fold (inserted now key value st).
  destruct (_ <? _)%nat; [| done].
  by rewrite cleanup_coherent by by apply coherent_inserted.
Qed.

Lemma set_fallback_preserves_coherent now key value ttl st :
  coherent st -> coherent (_set_fallback CACHE_TTL now key value ttl st).2.
Proof.
  intros Hco. rewrite set_fallback_coherent by done. cbv zeta.
  destruct (_ <? _)%nat; cbn [snd].
  - apply (coherent_without _ (inserted now key value st)).
    by apply coherent_inserted.
  - by apply coherent_inserted.
Qed.

Lemma set_all_coherent ops st : coherent st -> coherent (set_all CACHE_TTL ops st).
Proof.
  revert st. induction ops as [| [[now key] value] ops IH]; intros st Hco; [done |].
  simpl. by apply IH, set_fallback_preserves_coherent.
Qed.

Lemma coherent_empty : coherent empty_fallback.
Proof. unfold coherent. simpl. by rewrite !dom_empty_L. Qed.

End FallbackFacts.

(** C9 (as amended).  After every [set] on the in-memory tier, whatever
    sets came before, the call reports success and either the number of
    entries is at most the cap or no entry left is older than the TTL.
    The sweep removes expired entries only: an entry that has not expired
    is still there after the call, so there is no eviction by age of
    insertion and the count may stay above the cap. *)
Theorem fallback_set_evicts_only_expired :
  forall (CACHE_TTL : Z) (ops : list (Z * string * pyval))
         (now : Z) (key : string) (value : pyval) (ttl : option Z),
    let st := CacheVocabulary.set_all CACHE_TTL ops CacheVocabulary.empty_fallback in
    let st1 := CacheVocabulary.inserted now key value st in
    let r := Cache._set_fallback CACHE_TTL now key value ttl st in
    r.1 = true /\
    ((size (Cache._fallback_cache r.2) <= Cache.FALLBACK_CAP)%nat \/
     forall k t, Cache._fallback_timestamps r.2 !! k = Some t ->
                 now - t <= CACHE_TTL * 3600) /\
    (forall k t, Cache._fallback_timestamps st1 !! k = Some t ->
                 now - t <= CACHE_TTL * 3600 ->
                 Cache._fallback_cache r.2 !! k = Cache._fallback_cache st1 !! k).
Proof.
  intros CACHE_TTL ops now key value ttl st st1 r.
  assert (Hco : CacheVocabulary.coherent st)
    by apply set_all_coherent, coherent_empty.
  subst r. rewrite set_fallback_coherent by done. fold st1. cbv zeta.
  destruct (Nat.ltb_spec Cache.FALLBACK_CAP (size (Cache._fallback_cache st1)))
    as [Hbig | Hsmall]; cbn [fst snd].
  - split; [done |]. split.
    + right. intros k t Hk. cbn in Hk. unfold CacheVocabulary.without in Hk.
      apply map_lookup_filter_Some in Hk as [Hk Hn]. cbn in Hn.
      destruct (Z_le_gt_dec (now - t) (CACHE_TTL * 3600)) as [| Hgt]; [done |].
      exfalso. apply Hn, elem_of_expired_keys. eauto.
    + intros k t Hk Hle. cbn. unfold CacheVocabulary.without.
      apply option_eq. intros v. rewrite map_lookup_filter_Some. cbn.
      split; [by intros [? _] |]. intros Hv. split; [done |].
      intros [t' [Ht' Hgt]]%elem_of_expired_keys. fold st1 in Ht'.
      rewrite Hk in Ht'. injection Ht' as <-. lia.
  - split; [done |]. split; [by left | done].
Qed.

(** C9, counterexample.  A fresh in-memory tier that receives 1001 sets
    of distinct keys within one TTL holds 1001 entries, one more than the
    cap of 1000. *)
Lemma fallback_holds_1001_fresh_entries :
  size (Cache._fallback_cache
          (CacheVocabulary.set_all 600
             (map (fun key => (0, key, PNone)) (CacheVocabulary.numbered_keys 1001))
             CacheVocabulary.empty_fallback)) = 1001%nat
  /\ (Cache.FALLBACK_CAP < 1001)%nat.
Proof. split; [vm_compute; reflexivity | unfold Cache.FALLBACK_CAP; lia]. Qed.

(** ** Two-tier cache *)




(** ** Deed parser *)

Section ParserFacts.

Import Parser ParserVocabulary.

Lemma preserves_ret I {A} (a : A) : preserves I (ret a).
Proof. by intros st H. Qed.

Lemma preserves_lift I {A} (r : res A) : preserves I (lift r).
Proof. by intros st H. Qed.

Lemma preserves_bind I {A B} (m : M A) (k : A -> M B) :
  preserves I m -> (forall a, preserves I (k a)) -> preserves I (bind m k).
Proof.
  intros Hm Hk st H. unfold bind. specialize (Hm st H).
  destruct (m st) as [[a | e] st']; [by apply Hk | done].
Qed.

Lemma preserves_bind_lift I {A B} (r : res A) (k : A -> M B) :
  (forall a, r = Ok a -> preserves I (k a)) -> preserves I (bind (lift r) k).
Proof.
  intros Hk st H. unfold bind, lift. destruct r as [a | e]; [by apply Hk | done].
Qed.

Lemma preserves_setitem I key value :
  (forall st, I st -> I (<[key := value]> st)) -> preserves I (setitem key value).
Proof. intros Hs st H. by apply Hs. Qed.

Lemma preserves_for_each I xs body :
  (forall x, preserves I (body x)) -> preserves I (for_each xs body).
Proof.
  intros Hb. induction xs as [| x xs IH]; [apply preserves_ret |].
  simpl. apply preserves_bind; [apply Hb |]. intros []; [done | apply preserves_ret].
Qed.

(** The blocks of [_extract_subdeed_data] keep every property that their
    writes keep: any value under a plain key, and under [phone] the
    trimmed form of a raw value other than the placeholder. *)
Section Blocks.

Variable I : company_dict -> Prop.
Hypothesis I_plain :
  forall key value st, plain_key key -> I st -> I (<[key := value]> st).
Hypothesis I_phone :
  forall raw st, raw <> REDACTED -> I st -> I (<["phone" := PStr (strip_string raw)]> st).

Ltac block_step :=
  first
    [ apply preserves_ret
    | apply preserves_lift
    | apply preserves_for_each; intros ?
    | apply preserves_bind_lift; intros ? ?
    | apply preserves_bind; [| intros ?]
    | match goal with
      | |- preserves _ (if ?b then _ else _) => destruct b eqn:?
      | |- preserves _ (match ?x with _ => _ end) => destruct x eqn:?
      end ].

Lemma setitem_plain key value : plain_key key -> preserves I (setitem key value).
Proof. intros Hk. apply preserves_setitem. intros st. by apply I_plain. Qed.

Lemma managers_block_preserves subdeed : preserves I (managers_block subdeed).
Proof.
  unfold managers_block. repeat block_step.
  apply setitem_plain. unfold plain_key. tauto.
Qed.

Lemma address_block_preserves subdeed : preserves I (address_block subdeed).
Proof.
  unfold address_block. repeat block_step.
  apply setitem_plain. unfold plain_key. tauto.
Qed.

Lemma contact_field_preserves contacts field key :
  key = "email" \/ key = "website" -> preserves I (contact_field contacts field key).
Proof.
  intros Hk. unfold contact_field. repeat block_step.
  apply setitem_plain. unfold plain_key. tauto.
Qed.

Lemma contact_phone_preserves contacts : preserves I (contact_phone contacts).
Proof.
  unfold contact_phone. apply preserves_bind_lift. intros [phone |] _; [| apply preserves_ret].
  apply preserves_bind_lift. intros ok _.
  destruct (ok && ne_str phone REDACTED) eqn:Hc; [| apply preserves_ret].
  apply andb_true_iff in Hc as [_ Hne].
  apply preserves_bind_lift. intros stripped Hs.
  destruct phone as [| | | raw | |]; try discriminate Hs.
  injection Hs as <-.
  apply preserves_setitem. intros st. apply I_phone.
  intros ->. by vm_compute in Hne.
Qed.

Lemma contacts_block_preserves subdeed : preserves I (contacts_block subdeed).
Proof.
  unfold contacts_block.
  repeat first
    [ apply contact_phone_preserves
    | apply contact_field_preserves; tauto
    | block_step ].
Qed.

Lemma extract_subdeed_data_preserves subdeed st :
  I st -> I (_extract_subdeed_data subdeed st).
Proof.
  unfold _extract_subdeed_data, _extract_subdeed_data_try.
  apply preserves_bind; [apply managers_block_preserves |]. intros _.
  apply preserves_bind; [apply address_block_preserves |]. intros _.
  apply contacts_block_preserves.
Qed.

Lemma extract_subdeeds_preserves subdeeds st :
  I st -> I (fold_left (fun cd subdeed => _extract_subdeed_data subdeed cd) subdeeds st).
Proof.
  revert st. induction subdeeds as [| x xs IH]; intros st H; [done |].
  simpl. by apply IH, extract_subdeed_data_preserves.
Qed.

End Blocks.

Lemma extract_company_data_Some deed cd :
  _extract_company_data deed = Some cd ->
  exists deed_info uid name legal_form status subdeeds,
    getitem deed "$" = Ok deed_info /\
    get deed_info "UIC" = Ok uid /\ get deed_info "CompanyName" = Ok name /\
    truthy uid = true /\ truthy name = true /\
    cd = fold_left (fun cd subdeed => _extract_subdeed_data subdeed cd) subdeeds
           (new_company_data uid name legal_form status).
Proof.
  unfold _extract_company_data, _extract_company_data_try, res_bind.
  destruct (contains "$" deed) as [[] |]; cbn; try discriminate.
  destruct (getitem deed "$") as [deed_info |] eqn:H1; try discriminate.
  destruct (get deed_info "UIC") as [uid |] eqn:H2; try discriminate.
  destruct (get deed_info "CompanyName") as [name |] eqn:H3; try discriminate.
  destruct (get deed_info "LegalForm") as [legal_form |]; try discriminate.
  destruct (truthy uid) eqn:Hu; cbn; try discriminate.
  destruct (truthy name) eqn:Hn; cbn; try discriminate.
  destruct (get deed_info "DeedStatus") as [status |]; try discriminate.
  destruct (contains "SubDeed" deed) as [[] |]; try discriminate.
  - destruct (getitem deed "SubDeed") as [subdeeds |]; try discriminate.
    destruct (iter subdeeds) as [entries |]; try discriminate.
    intros [= <-]. by exists deed_info, uid, name, legal_form, status, entries.
  - intros [= <-]. by exists deed_info, uid, name, legal_form, status, [].
Qed.

Lemma plain_key_not_header key :
  plain_key key -> key <> "uid" /\ key <> "name" /\ key <> "phone".
Proof. unfold plain_key. intros [-> | [-> | [-> | ->]]]; done. Qed.

Lemma extract_company_data_header deed cd :
  _extract_company_data deed = Some cd ->
  exists deed_info uid name,
    getitem deed "$" = Ok deed_info /\
    get deed_info "UIC" = Ok uid /\ get deed_info "CompanyName" = Ok name /\
    truthy uid = true /\ truthy name = true /\
    cd !! "uid" = Some uid /\ cd !! "name" = Some name.
Proof.
  intros (deed_info & uid & name & lf & status & subdeeds & H1 & H2 & H3 & H4 & H5 & ->)
    %extract_company_data_Some.
  exists deed_info, uid, name. repeat (split; [done |]).
  apply (extract_subdeeds_preserves
           (fun st => st !! "uid" = Some uid /\ st !! "name" = Some name)).
  - intros key value st (Hu & Hn & _)%plain_key_not_header [Hsu Hsn].
    by rewrite !lookup_insert_ne.
  - intros raw st _ [Hsu Hsn]. by rewrite !lookup_insert_ne.
  - unfold new_company_data. split; [by rewrite lookup_insert_eq |].
    by rewrite lookup_insert_ne, lookup_insert_eq.
Qed.

Lemma extract_company_data_phone deed cd :
  _extract_company_data deed = Some cd -> phone_ok (cd !! "phone").
Proof.
  intros (deed_info & uid & name & lf & status & subdeeds & _ & _ & _ & _ & _ & ->)
    %extract_company_data_Some.
  apply (extract_subdeeds_preserves (fun st => phone_ok (st !! "phone"))).
  - intros key value st (_ & _ & Hp)%plain_key_not_header Hst.
    by rewrite lookup_insert_ne.
  - intros raw st Hraw _. rewrite lookup_insert_eq. right. by exists raw.
  - left. unfold new_company_data.
    rewrite !lookup_insert_ne by done. by rewrite lookup_insert_eq.
Qed.

Lemma extract_company_data_truthy deed cd :
  _extract_company_data deed = Some cd -> dict_truthy cd = true.
Proof.
  intros (_ & uid & _ & _ & _ & _ & _ & _ & Hu & _)%extract_company_data_header.
  unfold dict_truthy. destruct (Nat.eqb_spec (size cd) 0) as [H0 | ]; [| done].
  apply map_size_empty_iff in H0. subst cd. by rewrite lookup_empty in Hu.
Qed.

Lemma deed_step_omap deed companies :
  deed_step deed companies
  = Ok (companies ++ omap _extract_company_data [deed])%list.
Proof.
  unfold deed_step. cbn.
  destruct (_extract_company_data deed) as [cd |] eqn:He.
  - by rewrite (extract_company_data_truthy deed cd).
  - by rewrite app_nil_r.
Qed.

(** A loop whose step appends what [f] gives for the item. *)
Lemma for_acc_appends {X} (node : X -> pyval) (f : X -> list company_dict) step xs :
  (forall x companies, step (node x) companies = Ok (companies ++ f x)%list) ->
  forall companies,
    for_acc (map node xs) step companies = Ok (companies ++ concat (map f xs))%list.
Proof.
  intros Hstep. induction xs as [| x xs IH]; intros companies; cbn.
  - by rewrite app_nil_r.
  - rewrite Hstep. cbn. rewrite IH. by rewrite <- app_assoc.
Qed.

Lemma concat_map_omap {X Y} (f : X -> option Y) (xss : list (list X)) :
  concat (map (omap f) xss) = omap f (concat xss).
Proof.
  induction xss as [| xs xss IH]; [done |]. cbn. by rewrite omap_app, IH.
Qed.

Lemma concat_map_omap_concat {X Y} (f : X -> option Y) (xsss : list (list (list X))) :
  concat (map (fun xss => omap f (concat xss)) xsss) = omap f (concat (concat xsss)).
Proof.
  induction xsss as [| xss xsss IH]; [done |].
  cbn. by rewrite concat_app, omap_app, IH.
Qed.

Lemma deeds_step_feed deeds companies :
  deeds_step (deeds_node deeds) companies
  = Ok (companies ++ omap _extract_company_data deeds)%list.
Proof.
  unfold deeds_step, deeds_node. cbn.
  rewrite <- (map_id deeds) at 1.
  rewrite (for_acc_appends id (fun d => omap _extract_company_data [d])).
  - f_equal. f_equal. induction deeds as [| d ds IH]; [done |].
    cbn [map concat]. rewrite IH. cbn. by destruct (_extract_company_data d).
  - intros. apply deed_step_omap.
Qed.

Lemma body_step_feed groups companies :
  body_step (body_node groups) companies
  = Ok (companies ++ omap _extract_company_data (concat groups))%list.
Proof.
  unfold body_step, body_node. cbn.
  rewrite (for_acc_appends deeds_node (omap _extract_company_data)).
  - by rewrite concat_map_omap.
  - intros. apply deeds_step_feed.
Qed.

Lemma message_step_feed bodies companies :
  message_step (message_node bodies) companies
  = Ok (companies ++ omap _extract_company_data (concat (concat bodies)))%list.
Proof.
  unfold message_step, message_node. cbn.
  rewrite (for_acc_appends body_node (fun gs => omap _extract_company_data (concat gs))).
  - by rewrite concat_map_omap_concat.
  - intros. apply body_step_feed.
Qed.

Lemma parse_company_changes_feed messages :
  parse_company_changes (feed messages)
  = Ok (omap _extract_company_data (deeds_of messages)).
Proof.
  unfold parse_company_changes, parse_company_changes_try, feed, deeds_of. cbn.
  rewrite (for_acc_appends message_node
             (fun bs => omap _extract_company_data (concat (concat bs)))).
  - cbn. f_equal. induction messages as [| m ms IH]; [done |].
    cbn. by rewrite !concat_app, omap_app, IH.
  - intros. apply message_step_feed.
Qed.

Lemma length_omap_yields_nothing deeds :
  (length (omap _extract_company_data deeds)
   + length (List.filter yields_nothing deeds))%nat = length deeds.
Proof.
  induction deeds as [| d ds IH]; [done |].
  cbn. unfold yields_nothing at 1.
  destruct (_extract_company_data d); cbn; lia.
Qed.

Lemma contact_phone_redacted contacts st :
  contact_value contacts "Phone" = Ok (Some (PStr REDACTED)) ->
  contact_phone contacts st = (Ok tt, st).
Proof.
  intros H. unfold contact_phone, bind, lift. rewrite H.
  assert (Hnb : nonblank (PStr REDACTED) = Ok true) by (vm_compute; reflexivity).
  by rewrite Hnb.
Qed.

Lemma redacted_phone_contact_block uid name other :
  uid <> "" -> name <> "" ->
  exists cd,
    _extract_company_data
      (deed_with_contacts uid name (("Phone", PStr REDACTED) :: other)) = Some cd
    /\ cd !! "phone" = Some PNone.
Proof.
  intros Hu Hn.
  unfold _extract_company_data, _extract_company_data_try, deed_with_contacts.
  cbn -[_extract_subdeed_data].
  destruct (String.eqb_spec uid ""); [done |].
  destruct (String.eqb_spec name ""); [done |]. cbn -[_extract_subdeed_data].
  eexists. split; [reflexivity |].
  unfold _extract_subdeed_data, _extract_subdeed_data_try.
  set (st0 := new_company_data _ _ _ _).
  assert (H0 : st0 !! "phone" = Some PNone).
  { unfold st0, new_company_data. rewrite !lookup_insert_ne by done.
    by rewrite lookup_insert_eq. }
  clearbody st0.
  unfold bind at 1. cbn -[address_block contacts_block].
  unfold bind at 1. cbn -[contacts_block contact_phone contact_field].
  unfold contacts_block. cbn -[contact_phone contact_field].
  set (I := fun st : company_dict => st !! "phone" = Some PNone).
  assert (Hplain : forall key value st, plain_key key -> I st -> I (<[key := value]> st)).
  { intros key value st (_ & _ & Hp)%plain_key_not_header Hst. unfold I.
    by rewrite lookup_insert_ne. }
  match goal with
  | |- (?m st0).2 !! "phone" = _ => apply ((fun H : preserves I m => H st0 H0))
  end.
  apply preserves_bind; [| intros []; apply preserves_ret].
  apply preserves_bind_lift; intros ? [= <-].
  apply preserves_bind_lift; intros ? [= <-].
  apply preserves_bind_lift; cbn; intros ? [= <-]. cbn -[contact_phone contact_field].
  apply preserves_bind.
  { intros st Hst. by rewrite contact_phone_redacted. }
  intros _. apply preserves_bind; [apply contact_field_preserves; auto |].
  intros _. apply preserves_bind; [apply contact_field_preserves; auto |].
  intros _. apply preserves_ret.
Qed.

End ParserFacts.

(** C6 (as amended).  [parse_company_changes] never raises.  A deed node
    whose header lacks a truthy [UIC] or a truthy [CompanyName] yields no
    record.  When the containers of the payload (messages, bodies, deed
    groups) are well formed, the records are exactly those of the deed
    nodes that yield one, in document order: a deed node that yields
    nothing, for whatever reason, takes no other record away, so ten deed
    nodes with one malformed give nine records.  Nothing is promised for
    a payload with a malformed container. *)
Theorem parse_company_changes_isolates_deed_nodes :
  (forall daily_data,
     exists companies, Parser.parse_company_changes daily_data = Ok companies) /\
  (forall deed deed_info uid name,
     getitem deed "$" = Ok deed_info ->
     get deed_info "UIC" = Ok uid -> get deed_info "CompanyName" = Ok name ->
     truthy uid && truthy name = false ->
     Parser._extract_company_data deed = None) /\
  (forall messages,
     let deeds := ParserVocabulary.deeds_of messages in
     let companies := omap Parser._extract_company_data deeds in
     Parser.parse_company_changes (ParserVocabulary.feed messages) = Ok companies /\
     (length companies + length (List.filter ParserVocabulary.yields_nothing deeds))%nat
     = length deeds).
Proof.
  split; [| split].
  - intros daily_data. unfold Parser.parse_company_changes.
    destruct (Parser.parse_company_changes_try daily_data); eauto.
  - intros deed deed_info uid name H1 H2 H3 Hf.
    destruct (Parser._extract_company_data deed) as [cd |] eqn:He; [| done].
    apply extract_company_data_header in He
      as (deed_info' & uid' & name' & H1' & H2' & H3' & Hu & Hn & _).
    rewrite H1 in H1'. injection H1' as <-.
    rewrite H2 in H2'. injection H2' as <-.
    rewrite H3 in H3'. injection H3' as <-.
    by rewrite Hu, Hn in Hf.
  - intros messages deeds companies. split.
    + apply parse_company_changes_feed.
    + apply length_omap_yields_nothing.
Qed.

(** The theorem at a feed of ten deed nodes of which one has no [UIC]:
    nine records. *)
Lemma parse_company_changes_ten_deeds_one_malformed :
  exists companies,
    Parser.parse_company_changes (ParserVocabulary.feed [[[ParserVocabulary.ten_deeds]]])
    = Ok companies
    /\ length companies = 9%nat.
Proof.
  eexists. split.
  - exact (proj1 (proj2 (proj2 parse_company_changes_isolates_deed_nodes)
                    [[[ParserVocabulary.ten_deeds]]])).
  - vm_compute. reflexivity.
Defined.

(** C6, counterexample.  A payload whose first message holds a well-formed
    deed node and whose second message is malformed (a number) gives no
    record at all: the exception raised at the second message reaches the
    handler of [parse_company_changes], which returns an empty list. *)
Lemma malformed_message_discards_every_record :
  let good := ParserVocabulary.deed_with_contacts "175074752" "ACME" [] in
  let payload :=
    PDict [("Message", PList [ParserVocabulary.message_node [[[good]]]; PInt 5])] in
  ParserVocabulary.yields_nothing good = false
  /\ Parser.parse_company_changes payload = Ok [].
Proof. cbv zeta. split; vm_compute; reflexivity. Qed.




(** ** Merge path *)

Section MergeFacts.

Import Parser Services CompanyServices DailySyncWorker.

Variable CACHE_TTL : Z.
Variable json_dumps : pyval -> res string.
Variable json_loads : string -> res pyval.
Variable CompanyResponse : Type.
Variable model_validate : pyval -> res CompanyResponse.
Variable loop_time : Z.

Let merge := _update_single_company CACHE_TTL json_dumps json_loads
               CompanyResponse model_validate loop_time.

(** A service built without a cache cannot look an entity up. *)
Lemma get_company_without_cache now uid t :
  get_company CACHE_TTL json_dumps json_loads CompanyResponse model_validate
    {| cache := None |} now uid t = (Raise AttributeError, {| cache := None |}).
Proof. reflexivity. Qed.

Lemma update_single_company_try_raises company t :
  exists e,
    _update_single_company_try CACHE_TTL json_dumps json_loads CompanyResponse
      model_validate loop_time company t = (Raise e, company, t).
Proof.
  unfold _update_single_company_try.
  destruct (company !! "uid") as [uid |]; [| by exists KeyError].
  rewrite get_company_without_cache. by exists AttributeError.
Qed.

Lemma update_single_company_skips company w :
  merge company w = (false, company, emit (EvMerge company) w).
Proof.
  unfold merge, _update_single_company.
  destruct (update_single_company_try_raises company
              (Services.companies (emit (EvMerge company) w))) as [e ->].
  by destruct w.
Qed.

Lemma update_database_loop_skips companies u c w :
  exists w',
    update_database_loop CACHE_TTL json_dumps json_loads CompanyResponse
      model_validate loop_time companies u c w = (companies, u, c, w')
    /\ Services.companies w' = Services.companies w
    /\ sync_history w' = sync_history w.
Proof.
  revert w. induction companies as [| company rest IH]; intros w; cbn.
  - by exists w.
  - fold merge. rewrite update_single_company_skips.
    destruct (IH (emit (EvMerge company) w)) as (w' & -> & Hc & Hh).
    by exists w'.
Qed.

(** The dictionary [enrichment_data] holds the non-null fields of the
    change and nothing else. *)
Lemma enrichment_data_non_null company key value :
  enrichment_data company !! key = Some value ->
  value <> PNone /\ company !! key = Some value.
Proof.
  unfold enrichment_data. intros H%elem_of_list_to_map_2.
  apply list_elem_of_In, filter_In in H as [Hin Hnn]. cbn in Hnn.
  apply in_map_iff in Hin as (k & [= <- <-] & _).
  unfold field in *. destruct (company !! k) as [v |]; cbn in *.
  - split; [| done]. by intros ->.
  - done.
Qed.

(** What [update_company_enrichment] does with a patch when it is given
    a service that has a cache: the stored row takes the fields of the
    patch and keeps every other field. *)
Lemma update_company_enrichment_applies_patch self now key patch t r self' t' row :
  update_company_enrichment CACHE_TTL json_dumps json_loads CompanyResponse
    model_validate self now (PStr key) patch t = (Ok r, self', t') ->
  t !! key = Some row ->
  t' !! key = Some (patch ∪ row).
Proof.
  unfold update_company_enrichment. intros H Hrow.
  destruct (get_company _ _ _ _ _ self now (PStr key) t) as [[r0 | e0] self1];
    [| discriminate].
  destruct (forallb is_column (keys patch)); [| discriminate].
  destruct (cache_delete self1 _) as [[b | e1] self2]; [| discriminate].
  destruct (get_company _ _ _ _ _ self2 now (PStr key) _) as [[r1 | e2] self3];
    [| discriminate].
  injection H as _ _ <-. by rewrite lookup_alter_eq, Hrow.
Qed.

Lemma enrichment_patch_keeps_null_fields change row key :
  field change key = PNone ->
  (enrichment_data change ∪ row) !! key = row !! key.
Proof.
  intros Hnull. rewrite lookup_union.
  destruct (enrichment_data change !! key) as [v |] eqn:He.
  - apply enrichment_data_non_null in He as [Hv Hc].
    unfold field in Hnull. rewrite Hc in Hnull. cbn in Hnull. done.
  - by destruct (row !! key).
Qed.

End MergeFacts.

(** C1, evaluated at a first-seen entity.  The change carries an
    identifier and a name, and the store has no row for the identifier;
    [_update_single_company] returns [False], inserts nothing and leaves
    the change unmarked, so the run reads the application as skipped and
    counts no created company.  (The service is built without a cache, and
    the lookup raises before it reaches the store.) *)
Theorem merge_path_does_not_create_first_seen_entity :
  forall (CACHE_TTL : Z) (json_dumps : pyval -> res string)
         (json_loads : string -> res pyval) (CompanyResponse : Type)
         (model_validate : pyval -> res CompanyResponse) (loop_time : Z),
    let company := WorkerVocabulary.acme_change in
    let r := DailySyncWorker._update_single_company CACHE_TTL json_dumps json_loads
               CompanyResponse model_validate loop_time company
               WorkerVocabulary.empty_world in
    truthy (DailySyncWorker.field company "uid") = true /\
    truthy (DailySyncWorker.field company "name") = true /\
    Services.companies WorkerVocabulary.empty_world !! "175074752" = None /\
    r.1.1 = false /\
    DailySyncWorker.outcome_of r.1.1 r.1.2 = DailySyncWorker.Skipped /\
    Services.companies r.2 = ∅ /\
    DailySyncWorker.count_new [r.1.2] = 0.
Proof.
  intros. subst r. rewrite update_single_company_skips. cbn [fst snd].
  repeat split.
Qed.

(** C2.  Applying a change and then applying the same change again: the
    second application is skipped and writes nothing, so the store after
    both applications is the store after the first one.  (It holds for
    every change and every store because no application ever writes.) *)
Theorem reapplying_a_change_is_skipped :
  forall (CACHE_TTL : Z) (json_dumps : pyval -> res string)
         (json_loads : string -> res pyval) (CompanyResponse : Type)
         (model_validate : pyval -> res CompanyResponse) (loop_time : Z)
         (company : gmap string pyval) (w : Services.world),
    let apply := DailySyncWorker._update_single_company CACHE_TTL json_dumps
                   json_loads CompanyResponse model_validate loop_time in
    let first := apply company w in
    let second := apply first.1.2 first.2 in
    first.1.2 = company /\
    DailySyncWorker.outcome_of second.1.1 second.1.2 = DailySyncWorker.Skipped /\
    Services.companies second.2 = Services.companies first.2.
Proof.
  intros. subst first second apply.
  rewrite !update_single_company_skips. cbn [fst snd].
  rewrite ?update_single_company_skips. by repeat split.
Qed.

(** C5, evaluated at the example of the specification.  The stored entity has
    phone 555 and no e-mail address; the change has no phone and the
    e-mail address a@b.com.  The patch built from the change holds the
    e-mail address and no phone, but it is never applied: the stored row
    is unchanged, its e-mail address still null. *)
Theorem merge_path_leaves_email_unset :
  forall (CACHE_TTL : Z) (json_dumps : pyval -> res string)
         (json_loads : string -> res pyval) (CompanyResponse : Type)
         (model_validate : pyval -> res CompanyResponse) (loop_time : Z),
    let change := WorkerVocabulary.acme_email_change in
    let r := DailySyncWorker._update_single_company CACHE_TTL json_dumps json_loads
               CompanyResponse model_validate loop_time change
               WorkerVocabulary.acme_world in
    DailySyncWorker.enrichment_data change !! "email" = Some (PStr "a@b.com") /\
    DailySyncWorker.enrichment_data change !! "phone" = None /\
    r.1.1 = false /\
    Services.companies r.2 !! "175074752" = Some WorkerVocabulary.acme_row /\
    WorkerVocabulary.acme_row !! "phone" = Some (PStr "555") /\
    WorkerVocabulary.acme_row !! "email" = Some PNone.
Proof.
  intros. subst r. rewrite update_single_company_skips. cbn [fst snd].
  repeat split; vm_compute; reflexivity.
Qed.

(** ** Per-date runs *)

Section SyncFacts.

Import Services DailySyncWorker WorkerVocabulary.

Lemma is_date_synced_one d w r :
  List.filter (completed_daily_started_on d) (sync_history w) = [r] ->
  is_date_synced d w = true.
Proof.
  unfold is_date_synced. intros H.
  change (List.filter _ (sync_history w))
    with (List.filter (completed_daily_started_on d) (sync_history w)).
  by rewrite H.
Qed.

End SyncFacts.




(** Two more histories in which a completed daily record for the date
    exists and [is_date_synced] answers [False]: the record started in the
    last second of the day, which the upper bound 23:59:59 leaves out; and
    two completed daily records started on the day, for which
    [scalar_one_or_none] raises [MultipleResultsFound], answered with
    [False] by the handler. *)
Example is_date_synced_misses_last_second_and_duplicates :
  let d := DailySyncWorker.KNOWN_DATE in
  Services.is_date_synced d
    (WorkerVocabulary.world_with
       [WorkerVocabulary.completed_daily 1 d (Services.at_time d 23 59 59)]) = false
  /\ Services.is_date_synced d
       (WorkerVocabulary.world_with
          [WorkerVocabulary.completed_daily 1 d (Services.at_time d 9 0 0);
           WorkerVocabulary.completed_daily 2 d (Services.at_time d 10 0 0)]) = false.
Proof. cbv zeta. split; vm_compute; reflexivity. Qed.


(** * Further properties of the code *)

(** ** In-memory tier: round trips *)

Section FallbackRoundTrips.

Import Cache CacheVocabulary.

Variable CACHE_TTL : Z.

Implicit Types (st : fallback) (key k : string).

Lemma del_entry_other key k st :
  k <> key ->
  _fallback_cache (del_entry key st).2 !! k = _fallback_cache st !! k /\
  _fallback_timestamps (del_entry key st).2 !! k = _fallback_timestamps st !! k.
Proof.
  intros Hne. unfold del_entry.
  destruct (_fallback_cache st !! key); [| done].
  destruct (_fallback_timestamps st !! key); cbn; by rewrite ?lookup_delete_ne.
Qed.

Lemma del_entries_other ks k st :
  k ∉ ks ->
  _fallback_cache (del_entries ks st).2 !! k = _fallback_cache st !! k /\
  _fallback_timestamps (del_entries ks st).2 !! k = _fallback_timestamps st !! k.
Proof.
  revert st. induction ks as [| key ks IH]; intros st Hk; [done |].
  apply not_elem_of_cons in Hk as [Hne Hk]. cbn.
  destruct (del_entry_other key k st Hne) as [Hc Ht].
  destruct (del_entry key st) as [[[] | e] st'] eqn:Hd; cbn in *.
  - destruct (IH st' Hk) as [Hc' Ht']. by rewrite Hc', Ht'.
  - done.
Qed.

(** The entry of a [set] is there after the [set], sweep or not. *)
Lemma set_fallback_entry now key value ttl st :
  0 <= CACHE_TTL ->
  let st1 := (_set_fallback CACHE_TTL now key value ttl st).2 in
  _fallback_cache st1 !! key = Some value /\
  _fallback_timestamps st1 !! key = Some now.
Proof.
  intros Httl. unfold _set_fallback. fold (inserted now key value st).
  assert (Hin : _fallback_cache (inserted now key value st) !! key = Some value
                /\ _fallback_timestamps (inserted now key value st) !! key = Some now)
    by (cbn; by rewrite !lookup_insert_eq).
  destruct (_ <? _)%nat; [| done].
  unfold _cleanup_fallback_cache.
  assert (Hk : key ∉ expired_keys CACHE_TTL now (inserted now key value st)).
  { intros [t [Ht Hgt]]%elem_of_expired_keys. cbn in Ht.
    rewrite lookup_insert_eq in Ht. injection Ht as <-. lia. }
  destruct (del_entries_other _ key (inserted now key value st) Hk) as [Hc Ht].
  destruct (del_entries _ _) as [[[] | e] st2]; cbn in *; by rewrite Hc, Ht.
Qed.

End FallbackRoundTrips.

(** X1.  A value set in the in-memory tier is read back by [_get_fallback]
    as long as less than [CACHE_TTL] hours have passed, whatever [ttl] the
    caller gave to [set] and whatever else the tier holds; the read leaves
    the tier as it is. *)
Theorem fallback_set_then_get :
  forall (CACHE_TTL now now' : Z) (key : string) (value : pyval) (ttl : option Z)
         (st : Cache.fallback),
    0 <= CACHE_TTL ->
    now' - now < CACHE_TTL * 3600 ->
    let st1 := (Cache._set_fallback CACHE_TTL now key value ttl st).2 in
    Cache._get_fallback CACHE_TTL now' key st1 = (Ok value, st1).
Proof.
  intros * Httl Hfresh st1.
  destruct (set_fallback_entry CACHE_TTL now key value ttl st Httl) as [Hc Ht].
  fold st1 in Hc, Ht. unfold Cache._get_fallback. rewrite Hc, Ht. cbn.
  destruct (Z.ltb_spec (now' - now) (CACHE_TTL * 3600)); [done | lia].
Qed.

Lemma fallback_set_then_get_one_second :
  let st1 := (Cache._set_fallback 600 100 "k" (PInt 7) (Some 1)
                CacheVocabulary.empty_fallback).2 in
  Cache._get_fallback 600 101 "k" st1 = (Ok (PInt 7), st1).
Proof.
  apply (fallback_set_then_get 600 100 101 "k" (PInt 7) (Some 1)
           CacheVocabulary.empty_fallback); lia.
Defined.

(** X2.  Once [CACHE_TTL] hours have passed since the [set], the read
    returns [None] and removes the entry from both dictionaries; the [ttl]
    given to [set] plays no part. *)
Theorem fallback_get_after_ttl :
  forall (CACHE_TTL now now' : Z) (key : string) (value : pyval) (ttl : option Z)
         (st : Cache.fallback),
    0 <= CACHE_TTL ->
    CACHE_TTL * 3600 <= now' - now ->
    let st1 := (Cache._set_fallback CACHE_TTL now key value ttl st).2 in
    Cache._get_fallback CACHE_TTL now' key st1
    = (Ok PNone,
       {| Cache._fallback_cache := base.delete key (Cache._fallback_cache st1);
          Cache._fallback_timestamps :=
            base.delete key (Cache._fallback_timestamps st1) |}).
Proof.
  intros * Httl Hold st1.
  destruct (set_fallback_entry CACHE_TTL now key value ttl st Httl) as [Hc Ht].
  fold st1 in Hc, Ht. unfold Cache._get_fallback, Cache.del_entry. rewrite Hc, Ht. cbn.
  destruct (Z.ltb_spec (now' - now) (CACHE_TTL * 3600)); [lia | done].
Qed.

Lemma fallback_get_after_ttl_one_hour :
  let st1 := (Cache._set_fallback 1 0 "k" (PInt 7) (Some 86400)
                CacheVocabulary.empty_fallback).2 in
  Cache._get_fallback 1 3600 "k" st1
  = (Ok PNone,
     {| Cache._fallback_cache := base.delete "k" (Cache._fallback_cache st1);
        Cache._fallback_timestamps := base.delete "k" (Cache._fallback_timestamps st1) |}).
Proof.
  apply (fallback_get_after_ttl 1 0 3600 "k" (PInt 7) (Some 86400)
           CacheVocabulary.empty_fallback); lia.
Defined.

(** X3.  Without a Redis client, [CacheService.get] never raises, in
    whatever state the two dictionaries of the in-memory tier are: when
    the first read raises ([KeyError] on a missing timestamp), the entry
    is already gone for the read of the handler. *)
Theorem get_without_redis_never_raises :
  forall (CACHE_TTL : Z) (json_loads : string -> res pyval) (st : Cache.fallback)
         (now : Z) (key : string),
    exists v,
      (Cache.get CACHE_TTL json_loads
         {| Cache.redis_client := None; Cache.fb := st |} now key).1 = Ok v.
Proof.
  intros. unfold Cache.get. cbn [Cache.redis_client Cache.fb].
  destruct (Cache._get_fallback CACHE_TTL now key st) as [[v | e] st'] eqn:H1;
    [by exists v |].
  assert (Hgone : Cache._fallback_cache st' !! key = None).
  { unfold Cache._get_fallback, Cache.del_entry in H1.
    destruct (Cache._fallback_cache st !! key) eqn:Hc; [| discriminate].
    destruct (_ <? _); [discriminate |].
    destruct (Cache._fallback_timestamps st !! key); [discriminate |].
    injection H1 as _ <-. cbn. apply lookup_delete_eq. }
  exists PNone. unfold Cache.lift_fb, Cache._get_fallback. by rewrite Hgone.
Qed.

(** With a Redis client that is down the same state makes [get] raise:
    the counter [hits] was stored by [increment] and has no timestamp. *)
Example get_with_redis_down_raises :
  (Cache.get 1 WorkerVocabulary.loads_ok
     {| Cache.redis_client := Some CacheVocabulary.failing_redis;
        Cache.fb := {| Cache._fallback_cache := {["hits" := PInt 5]};
                       Cache._fallback_timestamps := ∅ |} |} 3600 "hits").1
  = Raise KeyError.
Proof. vm_compute. reflexivity. Qed.

(** X4.  After [_delete_fallback] the key reads as absent, in whatever
    state the tier was, and no other key is touched. *)
Theorem fallback_delete_then_get :
  forall (CACHE_TTL now : Z) (key : string) (st : Cache.fallback),
    let st' := (Cache._delete_fallback key st).2 in
    Cache._get_fallback CACHE_TTL now key st' = (Ok PNone, st') /\
    (forall k, k <> key ->
       Cache._fallback_cache st' !! k = Cache._fallback_cache st !! k /\
       Cache._fallback_timestamps st' !! k = Cache._fallback_timestamps st !! k).
Proof.
  intros. subst st'. unfold Cache._delete_fallback.
  destruct (Cache._fallback_cache st !! key) as [v |] eqn:Hc.
  - split.
    + assert (Hgone : Cache._fallback_cache (Cache.del_entry key st).2 !! key = None).
      { unfold Cache.del_entry. rewrite Hc.
        destruct (Cache._fallback_timestamps st !! key); cbn; apply lookup_delete_eq. }
      destruct (Cache.del_entry key st) as [[[] | e] st']; cbn in *;
        unfold Cache._get_fallback; by rewrite Hgone.
    + intros k Hne. destruct (del_entry_other key k st Hne) as [H1 H2].
      by destruct (Cache.del_entry key st) as [[[] | e] st'].
  - split; [| done]. cbn. unfold Cache._get_fallback. by rewrite Hc.
Qed.

(** X5.  Counters of the in-memory tier add up: an increment by [a]
    followed by an increment by [b] returns, and stores, what one
    increment by [a + b] does, for a key that is absent or holds an
    integer. *)
Theorem fallback_increments_add :
  forall (key : string) (a b : Z) (st : Cache.fallback),
    (Cache._fallback_cache st !! key = None \/
     exists n, Cache._fallback_cache st !! key = Some (PInt n)) ->
    Cache.increment_fallback key b (Cache.increment_fallback key a st).2
    = Cache.increment_fallback key (a + b) st.
Proof.
  intros key a b st H. unfold Cache.increment_fallback.
  assert (exists n, default (PInt 0) (Cache._fallback_cache st !! key) = PInt n)
    as [n ->].
  { destruct H as [-> | [n ->]]; by eexists. }
  cbn. rewrite lookup_insert_eq. cbn. rewrite insert_insert_eq.
  by replace (n + a + b) with (n + (a + b)) by lia.
Qed.

Lemma fallback_increments_add_fresh :
  Cache.increment_fallback "hits" 2
    (Cache.increment_fallback "hits" 1 CacheVocabulary.empty_fallback).2
  = Cache.increment_fallback "hits" 3 CacheVocabulary.empty_fallback.
Proof.
  apply (fallback_increments_add "hits" 1 2 CacheVocabulary.empty_fallback).
  left. reflexivity.
Defined.

(** X6.  A counter created by [increment] in the in-memory tier gets no
    timestamp.  Reading it with [_get_fallback] once the clock of the
    event loop shows [CACHE_TTL] hours or more raises [KeyError], and the
    counter is gone. *)
Theorem fallback_counter_read_raises :
  forall (CACHE_TTL now : Z) (key : string) (amount : Z) (st : Cache.fallback),
    Cache._fallback_cache st !! key = None ->
    Cache._fallback_timestamps st !! key = None ->
    CACHE_TTL * 3600 <= now ->
    let st1 := (Cache.increment_fallback key amount st).2 in
    Cache._fallback_cache st1 !! key = Some (PInt amount) /\
    Cache._get_fallback CACHE_TTL now key st1
    = (Raise KeyError,
       {| Cache._fallback_cache := Cache._fallback_cache st;
          Cache._fallback_timestamps := Cache._fallback_timestamps st |}).
Proof.
  intros * Hc Ht Hnow st1. subst st1. unfold Cache.increment_fallback.
  rewrite Hc. cbn. rewrite lookup_insert_eq. split; [done |].
  unfold Cache._get_fallback, Cache.del_entry. cbn.
  rewrite lookup_insert_eq, Ht. cbn.
  destruct (Z.ltb_spec (now - 0) (CACHE_TTL * 3600)); [lia |].
  by rewrite delete_insert_id.
Qed.

Lemma fallback_counter_read_raises_after_an_hour :
  let st1 := (Cache.increment_fallback "hits" 1 CacheVocabulary.empty_fallback).2 in
  Cache._fallback_cache st1 !! "hits" = Some (PInt 1) /\
  Cache._get_fallback 1 3600 "hits" st1
  = (Raise KeyError,
     {| Cache._fallback_cache := ∅; Cache._fallback_timestamps := ∅ |}).
Proof.
  apply (fallback_counter_read_raises 1 3600 "hits" 1 CacheVocabulary.empty_fallback);
    [reflexivity | reflexivity | lia].
Defined.

(** X7.  The dictionaries [_fallback_cache] and [_fallback_timestamps]
    keep the same set of keys under [_set_fallback], [_get_fallback] and
    [_delete_fallback]; and while they do, the three never fail: the set
    and the delete return [True] and the read does not raise. *)
Theorem fallback_keeps_its_keys_in_step :
  forall (CACHE_TTL now : Z) (key : string) (value : pyval) (ttl : option Z)
         (st : Cache.fallback),
    CacheVocabulary.coherent st ->
    (Cache._set_fallback CACHE_TTL now key value ttl st).1 = true /\
    CacheVocabulary.coherent (Cache._set_fallback CACHE_TTL now key value ttl st).2 /\
    (exists v, (Cache._get_fallback CACHE_TTL now key st).1 = Ok v) /\
    CacheVocabulary.coherent (Cache._get_fallback CACHE_TTL now key st).2 /\
    (Cache._delete_fallback key st).1 = true /\
    CacheVocabulary.coherent (Cache._delete_fallback key st).2.
Proof.
  intros * Hco.
  assert (Hdel : forall v, Cache._fallback_cache st !! key = Some v ->
            Cache.del_entry key st
            = (Ok tt, {| Cache._fallback_cache := base.delete key (Cache._fallback_cache st);
                         Cache._fallback_timestamps :=
                           base.delete key (Cache._fallback_timestamps st) |})).
  { intros v Hv. apply del_entry_coherent; [done |].
    unfold CacheVocabulary.coherent in Hco. rewrite Hco. apply elem_of_dom. eauto. }
  assert (Hco' : CacheVocabulary.coherent
            {| Cache._fallback_cache := base.delete key (Cache._fallback_cache st);
               Cache._fallback_timestamps :=
                 base.delete key (Cache._fallback_timestamps st) |}).
  { unfold CacheVocabulary.coherent in *. cbn. by rewrite !dom_delete_L, Hco. }
  split; [by rewrite set_fallback_coherent |].
  split; [by apply set_fallback_preserves_coherent |].
  unfold Cache._get_fallback, Cache._delete_fallback.
  destruct (Cache._fallback_cache st !! key) as [v |] eqn:Hc.
  - rewrite (Hdel v eq_refl). destruct (_ <? _); cbn; eauto 10.
  - cbn. eauto 10.
Qed.

Lemma fallback_keeps_its_keys_in_step_from_empty :
  let st := CacheVocabulary.empty_fallback in
  (Cache._set_fallback 600 0 "k" PNone None st).1 = true /\
  CacheVocabulary.coherent (Cache._set_fallback 600 0 "k" PNone None st).2 /\
  (exists v, (Cache._get_fallback 600 0 "k" st).1 = Ok v) /\
  CacheVocabulary.coherent (Cache._get_fallback 600 0 "k" st).2 /\
  (Cache._delete_fallback "k" st).1 = true /\
  CacheVocabulary.coherent (Cache._delete_fallback "k" st).2.
Proof.
  apply (fallback_keeps_its_keys_in_step 600 0 "k" PNone None
           CacheVocabulary.empty_fallback).
  apply coherent_empty.
Defined.

(** ** Deed parser: the shape of a record *)

Section RecordFacts.

Import Parser ParserVocabulary RecordVocabulary.

Lemma extract_company_data_fields deed cd :
  _extract_company_data deed = Some cd ->
  exists deed_info uid name legal_form status subdeeds,
    getitem deed "$" = Ok deed_info /\
    get deed_info "UIC" = Ok uid /\ get deed_info "CompanyName" = Ok name /\
    get deed_info "LegalForm" = Ok legal_form /\
    get deed_info "DeedStatus" = Ok status /\
    cd = fold_left (fun cd subdeed => _extract_subdeed_data subdeed cd) subdeeds
           (new_company_data uid name legal_form status).
Proof.
  unfold _extract_company_data, _extract_company_data_try, res_bind.
  destruct (contains "$" deed) as [[] |]; cbn; try discriminate.
  destruct (getitem deed "$") as [deed_info |] eqn:H1; try discriminate.
  destruct (get deed_info "UIC") as [uid |] eqn:H2; try discriminate.
  destruct (get deed_info "CompanyName") as [name |] eqn:H3; try discriminate.
  destruct (get deed_info "LegalForm") as [legal_form |] eqn:H4; try discriminate.
  destruct (truthy uid); cbn; try discriminate.
  destruct (truthy name); cbn; try discriminate.
  destruct (get deed_info "DeedStatus") as [status |] eqn:H5; try discriminate.
  destruct (contains "SubDeed" deed) as [[] |]; try discriminate.
  - destruct (getitem deed "SubDeed") as [subdeeds |]; try discriminate.
    destruct (iter subdeeds) as [entries |]; try discriminate.
    intros [= <-]. by exists deed_info, uid, name, legal_form, status, entries.
  - intros [= <-]. by exists deed_info, uid, name, legal_form, status, [].
Qed.

Lemma plain_key_cases key :
  plain_key key ->
  key <> "uid" /\ key <> "name" /\ key <> "legal_form" /\ key <> "status".
Proof. unfold plain_key. intros [-> | [-> | [-> | ->]]]; done. Qed.

End RecordFacts.

#[local] Set Warnings "-clear-no-such-hyp".

(** X8.  Every extracted record has the eight keys of the dictionary
    literal, and no key besides them except [website]. *)
Theorem extracted_record_keys :
  forall (deed : pyval) (cd : gmap string pyval),
    Parser._extract_company_data deed = Some cd ->
    RecordVocabulary.RECORD_KEYS ⊆ dom cd /\
    dom cd ⊆ RecordVocabulary.RECORD_KEYS ∪ {["website"]}.
Proof.
  intros deed cd
    (deed_info & uid & name & lf & status & subdeeds & _ & _ & _ & _ & _ & ->)
    %extract_company_data_Some.
  apply (extract_subdeeds_preserves
           (fun st => RecordVocabulary.RECORD_KEYS ⊆ dom st /\
                      dom st ⊆ RecordVocabulary.RECORD_KEYS ∪ {["website"]})).
  - intros key value st Hk [H1 H2]. rewrite dom_insert_L.
    unfold RecordVocabulary.RECORD_KEYS in *.
    destruct Hk as [-> | [-> | [-> | ->]]]; set_solver.
  - intros raw st _ [H1 H2]. rewrite dom_insert_L.
    unfold RecordVocabulary.RECORD_KEYS in *. set_solver.
  - unfold Parser.new_company_data, RecordVocabulary.RECORD_KEYS.
    rewrite !dom_insert_L, dom_empty_L. set_solver.
Qed.

Lemma extracted_record_keys_acme :
  let cd := WorkerVocabulary.acme_change in
  RecordVocabulary.RECORD_KEYS ⊆ dom cd /\
  dom cd ⊆ RecordVocabulary.RECORD_KEYS ∪ {["website"]}.
Proof.
  apply (extracted_record_keys
           (PDict [("$", PDict [("UIC", PStr "175074752"); ("CompanyName", PStr "ACME")])])).
  reflexivity.
Defined.

(** X9.  The fields [uid], [name], [legal_form] and [status] of an
    extracted record are the attributes [UIC], [CompanyName], [LegalForm]
    and [DeedStatus] of the deed node, as they are; no sub-deed changes
    them. *)
Theorem extracted_record_header :
  forall (deed : pyval) (cd : gmap string pyval),
    Parser._extract_company_data deed = Some cd ->
    exists deed_info,
      getitem deed "$" = Ok deed_info /\
      Ok (DailySyncWorker.field cd "uid") = get deed_info "UIC" /\
      Ok (DailySyncWorker.field cd "name") = get deed_info "CompanyName" /\
      Ok (DailySyncWorker.field cd "legal_form") = get deed_info "LegalForm" /\
      Ok (DailySyncWorker.field cd "status") = get deed_info "DeedStatus".
Proof.
  intros deed cd
    (deed_info & uid & name & lf & status & subdeeds & H1 & H2 & H3 & H4 & H5 & ->)
    %extract_company_data_fields.
  exists deed_info. split; [done |]. rewrite H2, H3, H4, H5.
  assert (H : (fun st : gmap string pyval =>
                 st !! "uid" = Some uid /\ st !! "name" = Some name /\
                 st !! "legal_form" = Some lf /\ st !! "status" = Some status)
              (fold_left (fun cd subdeed => Parser._extract_subdeed_data subdeed cd)
                 subdeeds (Parser.new_company_data uid name lf status))).
  { apply extract_subdeeds_preserves.
    - intros key value st (? & ? & ? & ?)%plain_key_cases (? & ? & ? & ?).
      by rewrite !lookup_insert_ne.
    - intros raw st _ (? & ? & ? & ?). by rewrite !lookup_insert_ne.
    - unfold Parser.new_company_data.
      repeat split; rewrite ?lookup_insert_ne by done; by rewrite lookup_insert_eq. }
  cbn in H. destruct H as (Hu & Hn & Hl & Hs).
  unfold DailySyncWorker.field. by rewrite Hu, Hn, Hl, Hs.
Qed.

Lemma extracted_record_header_acme :
  exists deed_info,
    getitem (ParserVocabulary.deed_with_contacts "175074752" "ACME" []) "$" = Ok deed_info /\
    Ok (DailySyncWorker.field WorkerVocabulary.acme_change "uid") = get deed_info "UIC" /\
    Ok (DailySyncWorker.field WorkerVocabulary.acme_change "name")
    = get deed_info "CompanyName" /\
    Ok (DailySyncWorker.field WorkerVocabulary.acme_change "legal_form")
    = get deed_info "LegalForm" /\
    Ok (DailySyncWorker.field WorkerVocabulary.acme_change "status")
    = get deed_info "DeedStatus".
Proof.
  apply (extracted_record_header
           (ParserVocabulary.deed_with_contacts "175074752" "ACME" [])).
  vm_compute. reflexivity.
Defined.

(** ** Deed parser: managers and address *)

Section ManagerFacts.

Import Parser ParserVocabulary RecordVocabulary.

Lemma nonblank_str n : nonblank (PStr n) = Ok (negb (blank n)).
Proof.
  unfold nonblank, blank. cbn -[strip_string].
  destruct (String.eqb_spec n "") as [-> | Hne]; cbn -[strip_string]; reflexivity.
Qed.

Lemma managers_block_names names st :
  managers_block (managers_subdeed names) st
  = (Ok tt, match first_nonblank names with
            | Some n => <["manager" := PStr (strip_string n)]> st
            | None => st
            end).
Proof.
  unfold managers_block, managers_subdeed.
  unfold bind at 1. cbn -[nonblank strip_string for_each].
  unfold bind at 1. cbn -[nonblank strip_string for_each].
  unfold bind at 1. cbn -[nonblank strip_string for_each].
  induction names as [| n names IH]; [done |].
  cbn -[nonblank strip_string]. unfold bind at 1. unfold bind at 1.
  cbn -[nonblank strip_string]. rewrite nonblank_str.
  unfold first_nonblank. cbn [List.find].
  destruct (blank n); cbn -[strip_string]; [apply IH | reflexivity].
Qed.

Lemma join_strings sep (parts : list string) :
  join sep (map PStr parts) = Ok (String.concat sep parts).
Proof.
  induction parts as [| a [| b parts] IH]; [done | done |].
  cbn [map join] in *. rewrite IH. reflexivity.
Qed.

End ManagerFacts.


Example managers_of_a_subdeed :
  (Parser.managers_block
     (RecordVocabulary.managers_subdeed [""; "  "; " Ivan Petrov "; "Maria"]) ∅).2
  = {["manager" := PStr "Ivan Petrov"]}
  /\ (Parser.managers_block
        (RecordVocabulary.managers_subdeed ["**********"]) ∅).2
     = {["manager" := PStr "**********"]}.
Proof. split; vm_compute; reflexivity. Qed.

Section AddressFacts.

Import Parser ParserVocabulary RecordVocabulary.

Lemma address_block_parts a b c d st :
  address_block (address_subdeed a b c d) st
  = (Ok tt,
     match List.filter nonempty [a; b; c; d] with
     | [] => st
     | parts => <["address" := PStr (String.concat ", " parts)]> st
     end).
Proof.
  unfold address_block, address_subdeed, seat_address_parts, address_part, nonempty.
  unfold bind, lift, ret, setitem, res_bind. cbn.
  destruct (String.eqb a "") eqn:Ha, (String.eqb b "") eqn:Hb,
           (String.eqb c "") eqn:Hc, (String.eqb d "") eqn:Hd;
    cbn; rewrite ?Ha, ?Hb, ?Hc, ?Hd; cbn; reflexivity.
Qed.

End AddressFacts.

(** X11.  The address of a seat is put together from the components that
    are not empty, in the order settlement, street, street number, post
    code, joined by a comma and a space; when all four are empty the
    address is left as it was. *)
Theorem address_is_joined_in_fixed_order :
  forall (settlement street number postcode : string) (st : gmap string pyval),
    Parser.address_block
      (RecordVocabulary.address_subdeed settlement street number postcode) st
    = (Ok tt,
       match List.filter RecordVocabulary.nonempty [settlement; street; number; postcode] with
       | [] => st
       | parts => <["address" := PStr (String.concat ", " parts)]> st
       end).
Proof. apply address_block_parts. Qed.

(** Two addresses: one without a street number; and one whose settlement
    is a list holding an empty string, which is stored as the empty
    address. *)
Example addresses_of_a_seat :
  (Parser.address_block
     (RecordVocabulary.address_subdeed "Sofia" "Vitosha Blvd" "" "1000") ∅).2
  = {["address" := PStr "Sofia, Vitosha Blvd, 1000"]}
  /\ (Parser.address_block
        (PDict [("Seat", PList [PDict [("Address",
           PDict [("Settlement", PList [PStr ""])])]])]) ∅).2
     = {["address" := PStr ""]}.
Proof. split; vm_compute; reflexivity. Qed.

(** ** Deed parser: what is stored is trimmed *)

Section TrimmedFacts.

Import Parser ParserVocabulary RecordVocabulary.

Lemma nonblank_true x s :
  nonblank x = Ok true -> strip x = Ok s -> trimmed s.
Proof.
  destruct x as [| | | raw | |]; try discriminate. intros Hn [= <-].
  rewrite nonblank_str in Hn. injection Hn as Hn. exists raw. split; [done |].
  unfold blank in Hn. by destruct (String.eqb_spec (strip_string raw) "").
Qed.

Variable I : company_dict -> Prop.
Hypothesis I_trimmed :
  forall key value st,
    key = "manager" \/ key = "phone" \/ key = "email" \/ key = "website" ->
    trimmed value -> I st -> I (<[key := value]> st).
Hypothesis I_address :
  forall address st, I st -> I (<["address" := PStr address]> st).

Ltac trimmed_step :=
  first
    [ apply preserves_ret
    | apply preserves_lift
    | apply preserves_for_each; intros ?
    | apply preserves_bind_lift; intros ? ?
    | match goal with
      | H1 : nonblank ?x = Ok true, H2 : strip ?x = Ok ?s
        |- preserves _ (setitem _ ?s) =>
          apply preserves_setitem; intros ?; apply I_trimmed;
          [tauto | exact (nonblank_true x s H1 H2)]
      | |- preserves _ (setitem "address" (PStr _)) =>
          apply preserves_setitem; intros ?; apply I_address
      end
    | apply preserves_bind; [| intros ?]
    | match goal with
      | |- preserves _ (if ?b then _ else _) => destruct b eqn:?
      | |- preserves _ (match ?x with _ => _ end) => destruct x eqn:?
      end ].

Lemma managers_block_trimmed subdeed : preserves I (managers_block subdeed).
Proof. unfold managers_block. repeat trimmed_step. Qed.

Lemma address_block_trimmed subdeed : preserves I (address_block subdeed).
Proof. unfold address_block. repeat trimmed_step. Qed.

Lemma contact_phone_trimmed contacts : preserves I (contact_phone contacts).
Proof.
  unfold contact_phone. apply preserves_bind_lift. intros [phone |] _; [| apply preserves_ret].
  apply preserves_bind_lift. intros ok Hok.
  destruct (ok && ne_str phone REDACTED) eqn:Hc; [| apply preserves_ret].
  apply andb_true_iff in Hc as [-> _].
  apply preserves_bind_lift. intros stripped Hs.
  apply preserves_setitem. intros st. apply I_trimmed; [tauto |].
  exact (nonblank_true phone stripped Hok Hs).
Qed.

Lemma contact_field_trimmed contacts field key :
  key = "email" \/ key = "website" -> preserves I (contact_field contacts field key).
Proof.
  intros Hk. unfold contact_field. repeat trimmed_step.
Qed.

Lemma contacts_block_trimmed subdeed : preserves I (contacts_block subdeed).
Proof.
  unfold contacts_block.
  repeat first
    [ apply contact_phone_trimmed
    | apply contact_field_trimmed; tauto
    | trimmed_step ].
Qed.

Lemma extract_subdeeds_trimmed subdeeds st :
  I st -> I (fold_left (fun cd subdeed => _extract_subdeed_data subdeed cd) subdeeds st).
Proof.
  revert st. induction subdeeds as [| x xs IH]; intros st H; [done |].
  cbn. apply IH. unfold _extract_subdeed_data, _extract_subdeed_data_try.
  revert st H.
  apply preserves_bind; [apply managers_block_trimmed |]. intros _.
  apply preserves_bind; [apply address_block_trimmed |]. intros _.
  apply contacts_block_trimmed.
Qed.

End TrimmedFacts.



(** ** Runs: what they record and what they download *)

Section RunFacts.

Import Parser Services CompanyServices DailySyncWorker RunVocabulary.

Variable CACHE_TTL : Z.
Variable json_dumps : pyval -> res string.
Variable json_loads : string -> res pyval.
Variable CompanyResponse : Type.
Variable model_validate : pyval -> res CompanyResponse.
Variable fetch_resource : string -> option pyval.
Variable loop_time : Z.

Lemma update_database_loop_emits companies u c w :
  exists w',
    update_database_loop CACHE_TTL json_dumps json_loads CompanyResponse
      model_validate loop_time companies u c w = (companies, u, c, w')
    /\ Services.companies w' = Services.companies w
    /\ sync_history w' = sync_history w
    /\ activity_logs w' = activity_logs w
    /\ utcnow w' = utcnow w
    /\ trace w' = (trace w ++ map EvMerge companies)%list.
Proof.
  revert w. induction companies as [| company rest IH]; intros w; cbn.
  - exists w. by rewrite app_nil_r.
  - rewrite update_single_company_skips.
    destruct (IH (emit (EvMerge company) w)) as (w' & -> & Hc & Hh & Hl & Hn & Ht).
    exists w'. repeat split; try done.
    rewrite Ht. cbn. by rewrite <- app_assoc.
Qed.

Lemma update_database_emits companies w :
  exists w',
    update_database CACHE_TTL json_dumps json_loads CompanyResponse
      model_validate loop_time companies w = (0, companies, w')
    /\ Services.companies w' = Services.companies w
    /\ sync_history w' = sync_history w
    /\ activity_logs w' = activity_logs w
    /\ utcnow w' = utcnow w
    /\ trace w' = (trace w ++ map EvMerge companies)%list.
Proof.
  unfold update_database.
  destruct (update_database_loop_emits companies 0 0 w) as (w' & -> & H).
  by exists w'.
Qed.

Lemma insert_desc_elem r rs x : x ∈ insert_desc r rs <-> x = r \/ x ∈ rs.
Proof.
  induction rs as [| r' rest IH]; cbn.
  - rewrite list_elem_of_singleton. set_solver.
  - destruct (started_at r' <? started_at r).
    + by rewrite elem_of_cons.
    + rewrite !elem_of_cons, IH. tauto.
Qed.

Lemma order_by_started_at_desc_elem rs x :
  x ∈ order_by_started_at_desc rs <-> x ∈ rs.
Proof.
  induction rs as [| r rest IH]; cbn; [done |].
  by rewrite insert_desc_elem, IH, elem_of_cons.
Qed.

Lemma apply_kwarg_id k r r' : apply_kwarg k r = Ok r' -> id r' = id r.
Proof.
  destruct k as [v | v | name v]; cbn.
  - by intros [= <-].
  - by intros [= <-].
  - repeat case_match; intros [= <-]; done.
Qed.

Lemma apply_kwargs_id ks r r' : apply_kwargs ks r = Ok r' -> id r' = id r.
Proof.
  revert r. induction ks as [| k ks IH]; intros r; cbn.
  - by intros [= <-].
  - destruct (apply_kwarg k r) as [r1 |] eqn:Hk; cbn; [| done].
    intros H%IH. rewrite H. by apply apply_kwarg_id in Hk.
Qed.

(** [update_sync_record] leaves everything but the history as it is, and
    in the history it rewrites at most the rows that have the key of one
    daily record. *)
Lemma update_sync_record_cases d ks w :
  let w' := (update_sync_record d ks w).2 in
  Services.companies w' = Services.companies w /\
  activity_logs w' = activity_logs w /\
  utcnow w' = utcnow w /\
  trace w' = trace w /\
  (sync_history w' = sync_history w \/
   exists r r', r ∈ sync_history w /\ sync_type r = "daily" /\ id r' = id r /\
                sync_history w' = update_where_id (id r) r' (sync_history w)).
Proof.
  unfold update_sync_record.
  destruct (scalar_one_or_none _) as [[sr |] | e] eqn:Hs; cbn; try by auto 10.
  destruct (apply_kwargs ks sr) as [r' |] eqn:Hk; cbn; try by auto 10.
  repeat split. right. exists sr, r'.
  assert (Hin : sr ∈ order_by_started_at_desc
                  (List.filter (fun r => String.eqb (sync_type r) "daily" && started_on d r)
                     (sync_history w))).
  { destruct (order_by_started_at_desc _) as [| a [| b l]]; try discriminate.
    injection Hs as ->. apply list_elem_of_here. }
  apply order_by_started_at_desc_elem, list_elem_of_In, filter_In in Hin as [Hin Hd].
  apply andb_true_iff in Hd as [Hd%String.eqb_eq _].
  repeat split; [by apply list_elem_of_In | done | by apply apply_kwargs_id in Hk].
Qed.

Lemma next_id_above h r : r ∈ h -> id r < next_id h.
Proof.
  unfold next_id. induction h as [| x h IH]; [by intros ?%elem_of_nil |].
  intros [-> | Hin%IH]%elem_of_cons; cbn; lia.
Qed.

Lemma owns_update d ks w n news :
  owns n news (sync_history w) ->
  owns n news (sync_history (update_sync_record d ks w).2).
Proof.
  intros Ho. destruct (update_sync_record_cases d ks w) as (_ & _ & _ & _ & H).
  destruct H as [-> | (r & r' & Hin & Hty & Hid & ->)]; [done |].
  destruct Ho as (Hnews & h & Hh & Hlen & Hlt). split; [done |].
  rewrite Hh in Hin |- *.
  assert (Hr : r ∈ h).
  { apply elem_of_app in Hin as [? | Hin]; [done |].
    rewrite Forall_forall in Hnews. by destruct (Hnews r Hin). }
  assert (Hr' : Forall (fun x => id r < id x) news).
  { rewrite Forall_forall in Hlt. by apply Hlt. }
  exists (update_where_id (id r) r' h). unfold update_where_id.
  rewrite map_app, length_map. repeat split; [| done |].
  - f_equal. rewrite <- (map_id news) at 2. apply map_ext_Forall.
    eapply Forall_impl; [exact Hr' |]. cbn. intros x Hx.
    destruct (id x =? id r) eqn:He; [lia | done].
  - rewrite Forall_map. eapply Forall_impl; [exact Hlt |]. cbn. intros x Hx.
    destruct (id x =? id r); [| done]. by rewrite Hid.
Qed.

Lemma owns_create d type w n news :
  type <> "daily" ->
  owns n news (sync_history w) ->
  exists new,
    summary new = (d, type, "running", None, None) /\
    owns n (news ++ [new]) (sync_history (create_sync_record d type w).2).
Proof.
  intros Hty (Hnews & h & Hh & Hlen & Hlt).
  exists {| id := next_id (sync_history w); sync_date := d; sync_type := type;
            status := "running"; records_processed := 0; records_created := 0;
            records_updated := 0; records_failed := 0; error_message := None;
            started_at := utcnow w; completed_at := None |}.
  split; [reflexivity |]. cbn. split.
  - apply Forall_app. split; [done |]. by apply Forall_singleton.
  - exists h. rewrite Hh at 1. rewrite <- app_assoc. repeat split; [done |].
    rewrite Forall_forall in Hlt |- *. intros r Hr.
    apply Forall_app. split; [by apply Hlt |]. apply Forall_singleton. cbn.
    apply next_id_above. rewrite Hh. apply elem_of_app. by left.
Qed.

Section PerDate.

Variable P : list SyncHistory -> Prop.
Variable d : date.
Hypothesis P_update :
  forall ks w, P (sync_history w) -> P (sync_history (update_sync_record d ks w).2).

Lemma process_daily_data_history action data w :
  P (sync_history w) ->
  P (sync_history
       (process_daily_data CACHE_TTL json_dumps json_loads CompanyResponse
          model_validate loop_time d action data w).2).
Proof.
  intros H. unfold process_daily_data.
  destruct (returned (parse_company_changes data)) as [| c cs]; cbn.
  - by apply P_update.
  - destruct (update_database_emits (c :: cs) w) as (w' & -> & _ & Hh & _).
    cbn. apply P_update. by rewrite Hh.
Qed.

Lemma sync_one_date_history action w :
  P (sync_history w) ->
  P (sync_history
       (sync_one_date CACHE_TTL json_dumps json_loads CompanyResponse
          model_validate fetch_resource loop_time d action w).2).
Proof.
  intros H. unfold sync_one_date, download_daily_data.
  destruct (get_resource_by_date d) as [resource_id |]; cbn.
  - destruct (fetch_resource resource_id) as [data |]; cbn.
    + destruct (truthy data); cbn.
      * by apply process_daily_data_history.
      * by apply P_update.
    + by apply P_update.
  - by apply P_update.
Qed.

Lemma run_daily_sync_history w :
  is_date_synced d w = false ->
  P (sync_history (create_sync_record d "daily" w).2) ->
  P (sync_history
       (run_daily_sync CACHE_TTL json_dumps json_loads CompanyResponse
          model_validate fetch_resource loop_time d w)).
Proof.
  intros Hs H. unfold run_daily_sync. rewrite Hs.
  destruct (create_sync_record d "daily" w) as [sync_id w1]. cbn [snd] in H.
  destruct (existsb _ get_available_dates); [| by apply P_update].
  unfold download_daily_data.
  destruct (get_resource_by_date d) as [resource_id |]; cbn.
  - destruct (fetch_resource resource_id) as [data |]; cbn.
    + destruct (truthy data); cbn.
      * by apply process_daily_data_history.
      * by apply P_update.
    + by apply P_update.
  - by apply P_update.
Qed.

End PerDate.

Lemma insert_desc_length r rs : length (insert_desc r rs) = S (length rs).
Proof.
  induction rs as [| r' rest IH]; cbn; [done |].
  destruct (started_at r' <? started_at r); cbn; by rewrite ?IH.
Qed.

Lemma order_by_started_at_desc_length rs :
  length (order_by_started_at_desc rs) = length rs.
Proof.
  unfold order_by_started_at_desc.
  induction rs as [| r rest IH]; cbn; [done |].
  by rewrite insert_desc_length, IH.
Qed.

(** With two daily records started on the day, the query of
    [update_sync_record] raises and nothing is updated. *)
Lemma update_sync_record_two d ks w :
  (2 <= length (List.filter (fun r => String.eqb (sync_type r) "daily" && started_on d r)
                  (sync_history w)))%nat ->
  update_sync_record d ks w = (false, w).
Proof.
  intros H. unfold update_sync_record.
  rewrite <- order_by_started_at_desc_length in H.
  destruct (order_by_started_at_desc _) as [| a [| b l]]; cbn in H; [lia | lia |].
  reflexivity.
Qed.

Lemma downloads_app t1 t2 : downloads (t1 ++ t2) = (downloads t1 ++ downloads t2)%list.
Proof. unfold downloads. apply omap_app. Qed.

Lemma downloads_merges cs : downloads (map EvMerge cs) = [].
Proof. by induction cs. Qed.

Lemma process_daily_data_downloads d action data w :
  downloads (trace (process_daily_data CACHE_TTL json_dumps json_loads CompanyResponse
                      model_validate loop_time d action data w).2)
  = downloads (trace w).
Proof.
  unfold process_daily_data.
  destruct (returned (parse_company_changes data)) as [| c cs]; cbn.
  - by destruct (update_sync_record_cases d
                   [Kstatus "completed"; Kint "companies_processed" 0] w)
      as (_ & _ & _ & -> & _).
  - destruct (update_database_emits (c :: cs) w) as (w' & -> & _ & _ & _ & _ & Ht).
    cbn.
    destruct (update_sync_record_cases d (completed_kwargs (c :: cs)) w')
      as (_ & _ & _ & -> & _).
    by rewrite Ht, downloads_app, downloads_merges, app_nil_r.
Qed.

Lemma sync_one_date_downloads d action w :
  downloads (trace (sync_one_date CACHE_TTL json_dumps json_loads CompanyResponse
                      model_validate fetch_resource loop_time d action w).2)
  = (downloads (trace w) ++ [d])%list.
Proof.
  unfold sync_one_date, download_daily_data.
  destruct (get_resource_by_date d) as [resource_id |]; cbn.
  - destruct (fetch_resource resource_id) as [data |]; cbn.
    + destruct (truthy data); cbn.
      * rewrite process_daily_data_downloads. cbn.
        by rewrite !downloads_app, app_nil_r.
      * destruct (update_sync_record_cases d
                    [Kstatus "failed"; Kerror_message "No data available"]
                    (emit (EvFetch resource_id) (emit (EvDownload d) w)))
          as (_ & _ & _ & -> & _).
        cbn. by rewrite !downloads_app, app_nil_r.
    + destruct (update_sync_record_cases d
                  [Kstatus "failed"; Kerror_message "No data available"]
                  (emit (EvFetch resource_id) (emit (EvDownload d) w)))
        as (_ & _ & _ & -> & _).
      cbn. by rewrite !downloads_app, app_nil_r.
  - destruct (update_sync_record_cases d
                [Kstatus "failed"; Kerror_message "No data available"]
                (emit (EvDownload d) w))
      as (_ & _ & _ & -> & _).
    cbn. by rewrite !downloads_app.
Qed.

Lemma historical_loop_facts dates total w n news :
  owns n news (sync_history w) ->
  let w' := (historical_loop CACHE_TTL json_dumps json_loads CompanyResponse
               model_validate fetch_resource loop_time dates total w).2 in
  downloads (trace w') = (downloads (trace w) ++ dates)%list /\
  exists created,
    map summary created = map (fun d => (d, "historical", "running", None, None)) dates /\
    owns n (news ++ created) (sync_history w').
Proof.
  revert total w news.
  induction dates as [| d rest IH]; intros total w news Ho; cbv zeta;
    cbn [historical_loop].
  - cbn. rewrite !app_nil_r. split; [done |]. exists []. by rewrite app_nil_r.
  - destruct (owns_create d "historical" w n news) as (new & Hsum & Ho1); [done | done |].
    assert (Htr : trace (create_sync_record d "historical" w).2 = trace w) by done.
    destruct (create_sync_record d "historical" w) as [sync_id w1].
    cbn [snd] in Ho1, Htr.
    destruct (sync_one_date CACHE_TTL json_dumps json_loads CompanyResponse
                model_validate fetch_resource loop_time d "historical_sync" w1)
      as [processed_count w2] eqn:Hs.
    assert (Ho2 : owns n (news ++ [new]) (sync_history w2)).
    { change w2 with (processed_count, w2).2. rewrite <- Hs.
      apply (sync_one_date_history (owns n (news ++ [new]))); [| done].
      intros. by apply owns_update. }
    assert (Ht2 : downloads (trace w2) = (downloads (trace w1) ++ [d])%list).
    { change w2 with (processed_count, w2).2. rewrite <- Hs.
      by rewrite sync_one_date_downloads. }
    destruct (IH (total + processed_count) (sleep 1 w2) (news ++ [new])%list Ho2)
      as (Ht & created & Hc & Ho3).
    split.
    + rewrite Ht. cbn [sleep trace]. rewrite Ht2, Htr. by rewrite <- app_assoc.
    + exists (new :: created). cbn [map]. rewrite Hsum, Hc. split; [done |].
      by rewrite <- app_assoc in Ho3.
Qed.

End RunFacts.

(** X13.  [update_database] reports zero processed companies for every
    list of changes: it attempts each change once, in order, marks none
    as new, and leaves the table of companies and the sync history as they
    were. *)
Theorem update_database_reports_zero :
  forall (CACHE_TTL : Z) (json_dumps : pyval -> res string)
         (json_loads : string -> res pyval) (CompanyResponse : Type)
         (model_validate : pyval -> res CompanyResponse) (loop_time : Z)
         (companies : list (gmap string pyval)) (w : Services.world),
    let r := DailySyncWorker.update_database CACHE_TTL json_dumps json_loads
               CompanyResponse model_validate loop_time companies w in
    r.1.1 = 0 /\
    r.1.2 = companies /\
    Services.companies r.2 = Services.companies w /\
    Services.sync_history r.2 = Services.sync_history w /\
    Services.trace r.2 = (Services.trace w ++ map Services.EvMerge companies)%list.
Proof.
  intros. subst r.
  destruct (update_database_emits CACHE_TTL json_dumps json_loads CompanyResponse
              model_validate loop_time companies w)
    as (w' & -> & Hc & Hh & _ & _ & Ht).
  by repeat split.
Qed.






(** ** Company service over the in-memory tier *)

Section CompanyCacheFacts.

Import Cache CompanyServices.

Variable CACHE_TTL : Z.
Variable json_dumps : pyval -> res string.
Variable json_loads : string -> res pyval.
Variable CompanyResponse : Type.
Variable model_validate : pyval -> res CompanyResponse.

Let lookup_company := get_company CACHE_TTL json_dumps json_loads CompanyResponse
                        model_validate.

Lemma company_dict_of_truthy company : truthy (company_dict_of company) = true.
Proof. reflexivity. Qed.

(** A miss in the in-memory tier: the row is read from the table, stored
    in the tier and validated. *)
Lemma get_company_miss st now key company t :
  _fallback_cache st !! ("company:" +:+ key) = None ->
  t !! key = Some company ->
  lookup_company {| cache := Some {| redis_client := None; fb := st |} |}
    now (PStr key) t
  = (model_validate (company_dict_of company),
     {| cache := Some {| redis_client := None;
                         fb := (_set_fallback CACHE_TTL now ("company:" +:+ key)
                                  (company_dict_of company) (Some 3600) st).2 |} |}).
Proof.
  intros Hmiss Hrow.
  assert (Hg : _get_fallback CACHE_TTL now ("company:" +:+ key) st = (Ok PNone, st))
    by (unfold _get_fallback; by rewrite Hmiss).
  unfold lookup_company, get_company, cache_get, Cache.get.
  cbn [cache redis_client fb str]. rewrite Hg.
  cbn [fst snd with_fb redis_client fb truthy select_company]. rewrite Hrow.
  unfold cache_set, Cache.set, lift_fb. cbn [cache redis_client fb fst snd with_fb].
  reflexivity.
Qed.

(** A hit: the stored dictionary is validated and the table is not
    read. *)
Lemma get_company_hit st now key value t :
  _get_fallback CACHE_TTL now ("company:" +:+ key) st = (Ok value, st) ->
  truthy value = true ->
  lookup_company {| cache := Some {| redis_client := None; fb := st |} |}
    now (PStr key) t
  = (model_validate value, {| cache := Some {| redis_client := None; fb := st |} |}).
Proof.
  intros Hhit Htruthy. unfold lookup_company, get_company, cache_get, Cache.get.
  cbn [cache redis_client fb str]. rewrite Hhit.
  cbn [fst snd with_fb redis_client fb]. by rewrite Htruthy.
Qed.

(** Whatever a lookup does, it hands on a service over the in-memory
    tier. *)
Lemma get_company_tier st now uid t :
  exists st',
    (lookup_company {| cache := Some {| redis_client := None; fb := st |} |}
       now uid t).2
    = {| cache := Some {| redis_client := None; fb := st' |} |}.
Proof.
  unfold lookup_company, get_company, cache_get, Cache.get.
  cbn [cache redis_client fb].
  destruct (_get_fallback CACHE_TTL now _ st) as [[v | e] st1];
    cbn [fst snd with_fb redis_client fb lift_fb].
  - destruct (truthy v); [by eexists |].
    destruct (select_company uid t); [| by eexists].
    unfold cache_set, Cache.set, lift_fb. cbn [cache redis_client fb fst snd with_fb].
    by eexists.
  - unfold lift_fb.
    destruct (_get_fallback CACHE_TTL now _ st1) as [[v | e'] st2];
      cbn [fst snd with_fb redis_client fb]; [| by eexists].
    destruct (truthy v); [by eexists |].
    destruct (select_company uid t); [| by eexists].
    unfold cache_set, Cache.set, lift_fb. cbn [cache redis_client fb fst snd with_fb].
    by eexists.
Qed.

Lemma delete_fallback_gone key st :
  _fallback_cache (_delete_fallback key st).2 !! key = None.
Proof.
  unfold _delete_fallback, del_entry.
  destruct (_fallback_cache st !! key) eqn:Hc; [| done].
  destruct (_fallback_timestamps st !! key); cbn; apply lookup_delete_eq.
Qed.

End CompanyCacheFacts.

(** X18.  Over the in-memory tier [get_company] reads through the cache:
    a lookup that misses takes the row from the table and stores it, and
    for [CACHE_TTL] hours (the [ttl] of one hour given to [set] plays no
    part) every later lookup answers with that stored row and does not
    read the table, whatever the table holds by then. *)
Theorem get_company_answers_from_the_cache :
  forall (CACHE_TTL : Z) (json_dumps : pyval -> res string)
         (json_loads : string -> res pyval) (CompanyResponse : Type)
         (model_validate : pyval -> res CompanyResponse)
         (st : Cache.fallback) (now now' : Z) (key : string)
         (company : gmap string pyval) (t t' : gmap string (gmap string pyval)),
    0 <= CACHE_TTL ->
    now' - now < CACHE_TTL * 3600 ->
    Cache._fallback_cache st !! ("company:" +:+ key) = None ->
    t !! key = Some company ->
    let self := {| CompanyServices.cache :=
                     Some {| Cache.redis_client := None; Cache.fb := st |} |} in
    let first := CompanyServices.get_company CACHE_TTL json_dumps json_loads
                   CompanyResponse model_validate self now (PStr key) t in
    first.1 = model_validate (CompanyServices.company_dict_of company) /\
    CompanyServices.get_company CACHE_TTL json_dumps json_loads CompanyResponse
      model_validate first.2 now' (PStr key) t'
    = (model_validate (CompanyServices.company_dict_of company), first.2).
Proof.
  intros * Httl Hfresh Hmiss Hrow self first. subst self first.
  rewrite (get_company_miss CACHE_TTL json_dumps json_loads CompanyResponse
             model_validate st now key company t Hmiss Hrow).
  cbn [fst snd]. split; [done |].
  apply get_company_hit; [| apply company_dict_of_truthy].
  destruct (set_fallback_entry CACHE_TTL now ("company:" +:+ key)
              (CompanyServices.company_dict_of company) (Some 3600) st Httl)
    as [Hc Ht].
  unfold Cache._get_fallback. rewrite Hc, Ht. cbn [from_option id].
  destruct (Z.ltb_spec (now' - now) (CACHE_TTL * 3600)); [done | lia].
Qed.

Lemma get_company_answers_from_the_cache_after_the_row_is_gone :
  let self := {| CompanyServices.cache :=
                   Some {| Cache.redis_client := None;
                           Cache.fb := CacheVocabulary.empty_fallback |} |} in
  let t : gmap string (gmap string pyval) :=
    {["175074752" := WorkerVocabulary.acme_row]} in
  let first := CompanyServices.get_company 600 WorkerVocabulary.dumps_ok
                 WorkerVocabulary.loads_ok pyval WorkerVocabulary.validate_ok
                 self 0 (PStr "175074752") t in
  first.1 = Ok (CompanyServices.company_dict_of WorkerVocabulary.acme_row) /\
  CompanyServices.get_company 600 WorkerVocabulary.dumps_ok
    WorkerVocabulary.loads_ok pyval WorkerVocabulary.validate_ok
    first.2 7200 (PStr "175074752") ∅
  = (Ok (CompanyServices.company_dict_of WorkerVocabulary.acme_row), first.2).
Proof.
  apply (get_company_answers_from_the_cache 600 WorkerVocabulary.dumps_ok
           WorkerVocabulary.loads_ok pyval WorkerVocabulary.validate_ok
           CacheVocabulary.empty_fallback 0 7200 "175074752"
           WorkerVocabulary.acme_row {["175074752" := WorkerVocabulary.acme_row]} ∅).
  - lia.
  - lia.
  - reflexivity.
  - reflexivity.
Defined.



(** ** Enrichment cache *)

Section EnrichmentStoreFacts.

Import EnrichmentStore.

Variable CACHE_TTL : Z.

Lemma elem_of_expired_uids now c uid :
  uid ∈ expired_uids CACHE_TTL now c <->
  exists data timestamp,
    c !! uid = Some (data, timestamp) /\ timestamp < now - hours (CACHE_TTL * 2).
Proof.
  unfold expired_uids. rewrite list_elem_of_fmap. split.
  - intros [[uid' [data timestamp]] [-> Hin]]. apply elem_of_map_to_list in Hin.
    apply map_lookup_filter_Some in Hin as [Hl He]. by exists data, timestamp.
  - intros (data & timestamp & Hl & He). exists (uid, (data, timestamp)).
    split; [done |]. apply elem_of_map_to_list, map_lookup_filter_Some. done.
Qed.

Lemma del_uids_spec uids (c : enrichment_cache) :
  NoDup uids -> (forall uid, uid ∈ uids -> is_Some (c !! uid)) ->
  exists c',
    del_uids uids c = (Ok tt, c') /\
    forall uid, c' !! uid = if decide (uid ∈ uids) then None else c !! uid.
Proof.
  intros Hnd. revert c. induction Hnd as [| u uids Hu Hnd IH]; intros c Hin.
  - exists c. split; [done |]. intros uid. by rewrite decide_False by apply not_elem_of_nil.
  - cbn. destruct (Hin u) as [e He]; [by left |]. rewrite He.
    destruct (IH (base.delete u c)) as (c' & Hd & Hl).
    { intros uid Huid. rewrite lookup_delete_ne by (by intros ->).
      apply Hin. by right. }
    exists c'. split; [done |]. intros uid. rewrite Hl.
    destruct (decide (uid = u)) as [-> | Hne].
    + rewrite (decide_True (P := u ∈ u :: uids)) by (by left).
      rewrite lookup_delete_eq. by destruct (decide (u ∈ uids)).
    + rewrite lookup_delete_ne by done.
      destruct (decide (uid ∈ uids)) as [Hi | Hi].
      * by rewrite decide_True by (by right).
      * rewrite decide_False; [done |]. by intros [? | ?]%elem_of_cons.
Qed.

(** The sweep never raises, and it removes the entries stored more than
    twice the time to live ago and no other. *)
Lemma cleanup_old_cache_spec now (c : enrichment_cache) :
  exists c',
    cleanup_old_cache CACHE_TTL now c = (Ok tt, c') /\
    forall uid,
      c' !! uid = match c !! uid with
                  | Some (data, timestamp) =>
                      if timestamp <? now - hours (CACHE_TTL * 2) then None
                      else Some (data, timestamp)
                  | None => None
                  end.
Proof.
  unfold cleanup_old_cache.
  destruct (del_uids_spec (expired_uids CACHE_TTL now c) c) as (c' & Hd & Hl).
  - unfold expired_uids. apply NoDup_fst_map_to_list.
  - intros uid (data & timestamp & Hu & _)%elem_of_expired_uids. by rewrite Hu.
  - exists c'. split; [done |]. intros uid. rewrite Hl.
    destruct (decide (uid ∈ expired_uids CACHE_TTL now c)) as [Hi | Hi].
    + apply elem_of_expired_uids in Hi as (data & timestamp & -> & Hlt).
      by destruct (Z.ltb_spec timestamp (now - hours (CACHE_TTL * 2))); [| lia].
    + destruct (c !! uid) as [[data timestamp] |] eqn:Hu; [| done].
      destruct (Z.ltb_spec timestamp (now - hours (CACHE_TTL * 2))); [| done].
      destruct Hi. apply elem_of_expired_uids. by exists data, timestamp.
Qed.

End EnrichmentStoreFacts.

(** X20.  [cleanup_old_cache] never raises, and it removes exactly the
    entries stored more than twice [CACHE_TTL] hours before the sweep;
    every other entry is kept with its data and its time. *)
Theorem cleanup_old_cache_removes_the_entries_past_twice_the_ttl :
  forall (CACHE_TTL now : Z) (c : gmap string (gmap string pyval * Z)),
    exists c',
      EnrichmentStore.cleanup_old_cache CACHE_TTL now c = (Ok tt, c') /\
      forall uid,
        c' !! uid = match c !! uid with
                    | Some (data, timestamp) =>
                        if timestamp <? now - EnrichmentStore.hours (CACHE_TTL * 2)
                        then None
                        else Some (data, timestamp)
                    | None => None
                    end.
Proof. intros. apply cleanup_old_cache_spec. Qed.

(** X21.  Data stored with [cache_enrichment] is what
    [get_cached_enrichment] returns for that identifier until [CACHE_TTL]
    hours have passed since it was stored, and [None] from then on,
    provided the sweep at the end of [cache_enrichment] reads the clock
    no more than twice [CACHE_TTL] hours after the entry was stamped. *)
Theorem cache_enrichment_then_get_cached_enrichment :
  forall (CACHE_TTL now now' : Z) (uid : string) (data : gmap string pyval)
         (c : gmap string (gmap string pyval * Z)),
    now' - now <= EnrichmentStore.hours (CACHE_TTL * 2) ->
    exists c',
      EnrichmentStore.cache_enrichment CACHE_TTL now now' uid data c = (Ok tt, c') /\
      forall later,
        EnrichmentStore.get_cached_enrichment CACHE_TTL later uid c'
        = Ok (if later - now <? EnrichmentStore.hours CACHE_TTL then Some data
              else None).
Proof.
  intros * Hsweep. unfold EnrichmentStore.cache_enrichment.
  destruct (cleanup_old_cache_spec CACHE_TTL now' (<[uid := (data, now)]> c))
    as (c' & Hc & Hl).
  exists c'. split; [done |]. intros later.
  specialize (Hl uid). rewrite lookup_insert_eq in Hl.
  destruct (Z.ltb_spec now (now' - EnrichmentStore.hours (CACHE_TTL * 2))); [lia |].
  unfold EnrichmentStore.get_cached_enrichment, EnrichmentStore.is_cache_valid.
  rewrite Hl. by destruct (later - now <? EnrichmentStore.hours CACHE_TTL).
Qed.

Lemma cache_enrichment_then_get_cached_enrichment_acme :
  exists c',
    EnrichmentStore.cache_enrichment 600 0 5 "175074752"
      {["name" := PStr "ACME"]} ∅ = (Ok tt, c') /\
    forall later,
      EnrichmentStore.get_cached_enrichment 600 later "175074752" c'
      = Ok (if later - 0 <? EnrichmentStore.hours 600
            then Some {["name" := PStr "ACME"]} else None).
Proof.
  apply (cache_enrichment_then_get_cached_enrichment 600 0 5 "175074752"
           {["name" := PStr "ACME"]} ∅).
  vm_compute. discriminate.
Defined.

(** ** Mapping of a registry answer *)

Section RegistryMappingFacts.

Import RegistryMapping EnrichmentVocabulary.

Lemma res_bind_Ok {A B} (r : res A) (k : A -> res B) b :
  res_bind r k = Ok b -> exists a, r = Ok a /\ k a = Ok b.
Proof. destruct r as [a |]; cbn; [by exists a | done]. Qed.

Section Loops.

(** A property of [mapped_data] that no field of a section breaks. *)
Variable P : mapped -> Prop.
Hypothesis P_text :
  forall key value m,
    key = "legal_form" \/ key = "address" \/ key = "main_activity" \/
    key = "manager" \/ key = "capital" ->
    P m -> P (<[key := value]> m).

Lemma field_step_keeps field m m' : field_step field m = Ok m' -> P m -> P m'.
Proof.
  unfold field_step.
  intros (name_code & _ & (html_data & _ & (text & _ & H)%res_bind_Ok)%res_bind_Ok)
    %res_bind_Ok Hm.
  injection H as <-.
  repeat case_match; try done; apply P_text; tauto.
Qed.

Lemma for_mapped_keeps xs body m m' :
  (forall x m m', body x m = Ok m' -> P m -> P m') ->
  for_mapped xs body m = Ok m' -> P m -> P m'.
Proof.
  intros Hbody. revert m. induction xs as [| x xs IH]; intros m; cbn.
  - by intros [= <-].
  - intros (m1 & H1 & H2)%res_bind_Ok Hm. eapply IH; [done |]. by eapply Hbody.
Qed.

Lemma for_in_keeps key node body m m' :
  (forall x m m', body x m = Ok m' -> P m -> P m') ->
  for_in key node body m = Ok m' -> P m -> P m'.
Proof.
  intros Hbody. unfold for_in. intros ([] & _ & H)%res_bind_Ok Hm.
  - apply res_bind_Ok in H as (items & _ & (xs & _ & H)%res_bind_Ok).
    by eapply for_mapped_keeps.
  - by injection H as <-.
Qed.

Lemma sections_keep registry_data m m' :
  for_in "sections" registry_data section_step m = Ok m' -> P m -> P m'.
Proof.
  apply for_in_keeps. intros section m1 m1'. apply for_in_keeps.
  intros subdeed m2 m2'. apply for_in_keeps.
  intros group m3 m3'. apply for_in_keeps. apply field_step_keeps.
Qed.

End Loops.

(** What [map_code] does, when it does not raise. *)
Lemma map_code_Ok key target table registry_data m m' :
  map_code key target table registry_data m = Ok m' ->
  m' = m /\ (getitem registry_data key = Raise KeyError \/
             (exists num, getitem registry_data key = Ok num /\
                          table_lookup num table = Ok None) \/
             contains key registry_data = Ok false)
  \/ exists num name,
       getitem registry_data key = Ok num /\
       table_lookup num table = Ok (Some name) /\
       m' = <[target := PStr name]> m.
Proof.
  unfold map_code. intros ([] & Hc & H)%res_bind_Ok.
  - apply res_bind_Ok in H as (num & Hn & (name & Ht & H)%res_bind_Ok).
    injection H as <-. destruct name as [name |].
    + right. by exists num, name.
    + left. split; [done |]. right. left. by exists num.
  - injection H as <-. left. split; [done |]. by right; right.
Qed.

(** The steps of [map_registry_data_try]. *)
Lemma map_registry_data_try_Ok registry_data m :
  map_registry_data_try registry_data = Ok m ->
  exists m1 m2 m3,
    (contains "companyName" registry_data = Ok false /\ m1 = ∅ \/
     exists company_name,
       contains "companyName" registry_data = Ok true /\
       getitem registry_data "companyName" = Ok company_name /\
       m1 = <["name" := company_name]> ∅) /\
    for_in "sections" registry_data section_step m1 = Ok m2 /\
    map_code "legalForm" "legal_form" legal_form_map registry_data m2 = Ok m3 /\
    map_code "deedStatus" "status" status_map registry_data m3 = Ok m.
Proof.
  unfold map_registry_data_try.
  intros (has_name & Hc & (m1 & H1 & (m2 & H2 & (m3 & H3 & H4)%res_bind_Ok)
            %res_bind_Ok)%res_bind_Ok)%res_bind_Ok.
  exists m1, m2, m3. repeat split; try done.
  destruct has_name.
  - apply res_bind_Ok in H1 as (company_name & Hn & [= <-]).
    right. by exists company_name.
  - injection H1 as <-. by left.
Qed.

End RegistryMappingFacts.

(** X22.  Whatever the registry answers, [map_registry_data] returns no
    key besides [name], [legal_form], [address], [main_activity],
    [manager], [capital] and [status]: it never yields a phone, an e-mail
    address, a website or a registration date. *)
Theorem map_registry_data_keys :
  forall registry_data : pyval,
    dom (RegistryMapping.map_registry_data registry_data)
    ⊆ EnrichmentVocabulary.MAPPED_KEYS.
Proof.
  intros. unfold RegistryMapping.map_registry_data.
  destruct (RegistryMapping.map_registry_data_try registry_data) as [m | e] eqn:H;
    [| set_solver].
  apply map_registry_data_try_Ok in H as (m1 & m2 & m3 & H1 & H2 & H3 & H4).
  assert (P1 : dom m1 ⊆ EnrichmentVocabulary.MAPPED_KEYS).
  { destruct H1 as [[_ ->] | (v & _ & _ & ->)]; [set_solver |].
    rewrite dom_insert_L. unfold EnrichmentVocabulary.MAPPED_KEYS. set_solver. }
  assert (P2 : dom m2 ⊆ EnrichmentVocabulary.MAPPED_KEYS).
  { revert H2 P1.
    apply (sections_keep (fun m => dom m ⊆ EnrichmentVocabulary.MAPPED_KEYS)).
    intros key value m0 Hk Hm. rewrite dom_insert_L. unfold EnrichmentVocabulary.MAPPED_KEYS in *.
    destruct Hk as [-> | [-> | [-> | [-> | ->]]]]; set_solver. }
  assert (P3 : dom m3 ⊆ EnrichmentVocabulary.MAPPED_KEYS).
  { apply map_code_Ok in H3 as [[-> _] | (num & name & _ & _ & ->)]; [done |].
    rewrite dom_insert_L. unfold EnrichmentVocabulary.MAPPED_KEYS in *. set_solver. }
  apply map_code_Ok in H4 as [[-> _] | (num & name & _ & _ & ->)]; [done |].
  rewrite dom_insert_L. unfold EnrichmentVocabulary.MAPPED_KEYS in *. set_solver.
Qed.

(** X23.  The [status] of the mapped data comes from the table of
    [deedStatus] codes and from nowhere else: when it is set, the answer
    has a [deedStatus] that is a key of the table, and the value is the
    name the table gives it.  No field of a section can set it. *)
Theorem mapped_status_comes_from_the_table :
  forall (registry_data value : pyval),
    RegistryMapping.map_registry_data registry_data !! "status" = Some value ->
    exists num name,
      getitem registry_data "deedStatus" = Ok num /\
      RegistryMapping.table_lookup num RegistryMapping.status_map = Ok (Some name) /\
      value = PStr name.
Proof.
  intros * Hv. unfold RegistryMapping.map_registry_data in Hv.
  destruct (RegistryMapping.map_registry_data_try registry_data) as [m | e] eqn:H;
    [| by rewrite lookup_empty in Hv].
  apply map_registry_data_try_Ok in H as (m1 & m2 & m3 & H1 & H2 & H3 & H4).
  assert (P1 : m1 !! "status" = None).
  { destruct H1 as [[_ ->] | (v & _ & _ & ->)]; [done |].
    by rewrite lookup_insert_ne. }
  assert (P2 : m2 !! "status" = None).
  { revert H2 P1. apply (sections_keep (fun m => m !! "status" = None)).
    intros key v m0 Hk Hm.
    rewrite lookup_insert_ne; [done |].
    destruct Hk as [-> | [-> | [-> | [-> | ->]]]]; done. }
  assert (P3 : m3 !! "status" = None).
  { apply map_code_Ok in H3 as [[-> _] | (num & name & _ & _ & ->)]; [done |].
    by rewrite lookup_insert_ne. }
  apply map_code_Ok in H4 as [[-> _] | (num & name & Hn & Ht & ->)].
  - by rewrite P3 in Hv.
  - rewrite lookup_insert_eq in Hv. injection Hv as <-. by exists num, name.
Qed.

Lemma mapped_status_comes_from_the_table_active :
  exists num name,
    getitem (PDict [("deedStatus", PInt 1)]) "deedStatus" = Ok num /\
    RegistryMapping.table_lookup num RegistryMapping.status_map = Ok (Some name) /\
    PStr "Активен" = PStr name.
Proof.
  apply (mapped_status_comes_from_the_table (PDict [("deedStatus", PInt 1)])
           (PStr "Активен")).
  vm_compute. reflexivity.
Defined.

(** X24.  A [legalForm] code of the table decides the legal form: when
    the mapping succeeds and the code of the answer is a key of the
    table, [legal_form] is the name the table gives it, whatever text the
    sections hold for the field [CR_F_3_L]. *)
Theorem legal_form_code_overrides_the_section_text :
  forall (registry_data num : pyval) (name : string) (m : gmap string pyval),
    RegistryMapping.map_registry_data_try registry_data = Ok m ->
    getitem registry_data "legalForm" = Ok num ->
    RegistryMapping.table_lookup num RegistryMapping.legal_form_map = Ok (Some name) ->
    m !! "legal_form" = Some (PStr name).
Proof.
  intros * H Hnum Hname.
  apply map_registry_data_try_Ok in H as (m1 & m2 & m3 & _ & _ & H3 & H4).
  assert (P3 : m3 !! "legal_form" = Some (PStr name)).
  { apply map_code_Ok in H3 as [[_ Hno] | (num' & name' & Hn & Ht & ->)].
    - destruct Hno as [Hk | [(num' & Hn & Ht) | Hc]].
      + by rewrite Hk in Hnum.
      + rewrite Hn in Hnum. injection Hnum as ->. by rewrite Ht in Hname.
      + destruct registry_data; try discriminate. cbn in Hc, Hnum.
        by destruct (dict_lookup "legalForm" kvs).
    - rewrite Hn in Hnum. injection Hnum as ->. rewrite Ht in Hname.
      injection Hname as ->. by rewrite lookup_insert_eq. }
  apply map_code_Ok in H4 as [[-> _] | (num' & name' & _ & _ & ->)]; [done |].
  by rewrite lookup_insert_ne.
Qed.

Lemma legal_form_code_overrides_the_section_text_ood :
  RegistryMapping.map_registry_data
    (EnrichmentVocabulary.registry_answer [("legalForm", PInt 20)]
       "CR_F_3_L" "<b>OOD</b>") !! "legal_form"
  = Some (PStr "Дружество с ограничена отговорност").
Proof.
  apply (legal_form_code_overrides_the_section_text
           (EnrichmentVocabulary.registry_answer [("legalForm", PInt 20)]
              "CR_F_3_L" "<b>OOD</b>") (PInt 20)).
  - vm_compute. reflexivity.
  - reflexivity.
  - reflexivity.
Defined.

(** X25.  The [name] of the mapped data is the [companyName] of the
    answer as it is, neither trimmed nor cleared of tags, and no field of
    a section changes it; without a [companyName] there is no [name]. *)
Theorem mapped_name_is_the_company_name :
  forall (entries : list (string * pyval)) (m : gmap string pyval),
    RegistryMapping.map_registry_data_try (PDict entries) = Ok m ->
    m !! "name" = dict_lookup "companyName" entries.
Proof.
  intros * H.
  apply map_registry_data_try_Ok in H as (m1 & m2 & m3 & H1 & H2 & H3 & H4).
  assert (P1 : m1 !! "name" = dict_lookup "companyName" entries).
  { cbn in H1. destruct (dict_lookup "companyName" entries) as [v |].
    - destruct H1 as [[[=] _] | (v' & _ & [= <-] & ->)].
      by rewrite lookup_insert_eq.
    - by destruct H1 as [[_ ->] | (v' & [=] & _)]. }
  assert (P2 : m2 !! "name" = dict_lookup "companyName" entries).
  { revert H2 P1.
    apply (sections_keep
             (fun m => m !! "name" = dict_lookup "companyName" entries)).
    intros key v m0 Hk Hm.
    rewrite lookup_insert_ne; [done |].
    destruct Hk as [-> | [-> | [-> | [-> | ->]]]]; done. }
  assert (P3 : m3 !! "name" = dict_lookup "companyName" entries).
  { apply map_code_Ok in H3 as [[-> _] | (num & name & _ & _ & ->)]; [done |].
    by rewrite lookup_insert_ne. }
  apply map_code_Ok in H4 as [[-> _] | (num & name & _ & _ & ->)]; [done |].
  by rewrite lookup_insert_ne.
Qed.

Lemma mapped_name_is_the_company_name_untrimmed :
  RegistryMapping.map_registry_data
    (EnrichmentVocabulary.registry_answer [("companyName", PStr " <b>ACME</b> ")]
       "CR_F_7_L" "<i>Ivan</i> ") !! "name"
  = Some (PStr " <b>ACME</b> ").
Proof.
  apply (mapped_name_is_the_company_name
           ([("companyName", PStr " <b>ACME</b> ")] ++
            [("sections", PList [PDict [("subDeeds", PList [PDict [("groups",
               PList [PDict [("fields",
                 PList [PDict [("nameCode", PStr "CR_F_7_L");
                               ("htmlData", PStr "<i>Ivan</i> ")]])]])]])]])])).
  vm_compute. reflexivity.
Defined.

(** ** Removal of a company *)

Section CompanyRemovalFacts.

Import Cache CompanyServices CompanyRemoval.

Variable CACHE_TTL : Z.
Variable json_dumps : pyval -> res string.
Variable json_loads : string -> res pyval.
Variable CompanyResponse : Type.
Variable model_validate : pyval -> res CompanyResponse.

(** Neither cached nor stored: the lookup raises [CompanyNotFound]. *)
Lemma get_company_absent st now key (t : gmap string (gmap string pyval)) :
  _fallback_cache st !! ("company:" +:+ key) = None ->
  t !! key = None ->
  get_company CACHE_TTL json_dumps json_loads CompanyResponse model_validate
    {| cache := Some {| redis_client := None; fb := st |} |} now (PStr key) t
  = (Raise CompanyNotFound, {| cache := Some {| redis_client := None; fb := st |} |}).
Proof.
  intros Hmiss Hrow.
  assert (Hg : _get_fallback CACHE_TTL now ("company:" +:+ key) st = (Ok PNone, st))
    by (unfold _get_fallback; by rewrite Hmiss).
  unfold get_company, cache_get, Cache.get.
  cbn [cache redis_client fb str]. rewrite Hg.
  cbn [fst snd with_fb redis_client fb truthy select_company]. by rewrite Hrow.
Qed.

End CompanyRemovalFacts.

(** X26.  After [delete_company] has returned [True] over the in-memory
    tier, the row is gone from the table and every later lookup of the
    identifier raises [CompanyNotFound], although the lookup at the start
    of [delete_company] had put the row in the cache: the cache entry is
    deleted after the row. *)
Theorem delete_company_then_get_company_raises :
  forall (CACHE_TTL : Z) (json_dumps : pyval -> res string)
         (json_loads : string -> res pyval) (CompanyResponse : Type)
         (model_validate : pyval -> res CompanyResponse)
         (st : Cache.fallback) (now : Z) (key : string)
         (t t' : gmap string (gmap string pyval))
         (self' : CompanyServices.CompanyService),
    CompanyRemoval.delete_company CACHE_TTL json_dumps json_loads
      CompanyResponse model_validate
      {| CompanyServices.cache :=
           Some {| Cache.redis_client := None; Cache.fb := st |} |}
      now (PStr key) t = (Ok true, self', t') ->
    t' = base.delete key t /\
    forall later,
      (CompanyServices.get_company CACHE_TTL json_dumps json_loads CompanyResponse
         model_validate self' later (PStr key) t').1 = Raise CompanyNotFound.
Proof.
  intros * H. unfold CompanyRemoval.delete_company in H.
  destruct (get_company_tier CACHE_TTL json_dumps json_loads CompanyResponse
              model_validate st now (PStr key) t) as [st1 Hst1].
  destruct (CompanyServices.get_company _ _ _ _ _ _ now (PStr key) t)
    as [[r0 | e0] self1]; [| discriminate].
  cbn [snd] in Hst1. subst self1.
  unfold CompanyServices.cache_delete, Cache.delete, Cache.lift_fb in H.
  cbn [CompanyServices.cache Cache.redis_client Cache.fb fst snd
       CompanyServices.str] in H.
  unfold Cache.with_fb in H. cbn [Cache.redis_client] in H.
  injection H as <- <-. split; [done |]. intros later.
  rewrite get_company_absent; [done | apply delete_fallback_gone |].
  apply lookup_delete_eq.
Qed.

Lemma delete_company_then_get_company_raises_acme :
  let t : gmap string (gmap string pyval) :=
    {["175074752" := WorkerVocabulary.acme_row]} in
  let result :=
    CompanyRemoval.delete_company 600 WorkerVocabulary.dumps_ok
      WorkerVocabulary.loads_ok pyval WorkerVocabulary.validate_ok
      {| CompanyServices.cache :=
           Some {| Cache.redis_client := None;
                   Cache.fb := CacheVocabulary.empty_fallback |} |}
      0 (PStr "175074752") t in
  result.2 = base.delete "175074752" t /\
  forall later,
    (CompanyServices.get_company 600 WorkerVocabulary.dumps_ok
       WorkerVocabulary.loads_ok pyval WorkerVocabulary.validate_ok
       result.1.2 later (PStr "175074752") result.2).1 = Raise CompanyNotFound.
Proof.
  intros t result.
  apply (delete_company_then_get_company_raises 600 WorkerVocabulary.dumps_ok
           WorkerVocabulary.loads_ok pyval WorkerVocabulary.validate_ok
           CacheVocabulary.empty_fallback 0 "175074752" t result.2 result.1.2).
  vm_compute. reflexivity.
Defined.
